(** * Candidate selection of the Bayesian-optimization searcher

    A shallow embedding of
    [sagemaker_tune/optimizer/schedulers/searchers/bayesopt/tuning_algorithms/bo_algorithm.py]
    and of [ConstrainedGPFIFOSearcher._update], with the properties the
    specification states about them, and a model of the inference of [max_t]
    that [test_hyperband_max_t_inference] exercises.

    Python objects that are mutated in place and shared between caller and
    callee (the exclusion list, the pending-candidate state transformer, the
    random state of the candidate generator, the debug log, the logger) live
    in an explicit [World]; code that touches them runs in a
    state-and-exception monad.  The candidate generator, the scoring
    function, the local optimizer, the duplicate detector and the state
    transformer are taken to return whenever they are called. *)

From stdpp Require Import base option list gmap strings sorting.
From Stdlib Require Import ZArith Sorted.

Local Open Scope Z_scope.

(** ** Exceptions and the monad of effectful code *)

Inductive Exception :=
  | AssertionError (msg : string)
  | IndexError
  | StopIteration
  | AttributeError
  | KeyError (key : string)
  | ValueError.

Inductive Outcome (A : Type) :=
  | Return (a : A)
  | Raise (e : Exception).
Arguments Return {A} a.
Arguments Raise {A} e.

(** Log records of [logger.warning]; the two warnings of [next_candidates]
    carry the size of the configuration space, the number of configurations
    returned and the number requested.  Messages of level [info] are not
    recorded. *)
Inductive LogRecord :=
  | WarnAllSelected (configspace_size : option nat) (returned : nat) (requested : Z).

(** A computation over a state [W] returns a value or raises, and leaves a
    state behind in both cases. *)
Definition St (W A : Type) : Type := W → Outcome A * W.

Definition ret {W A} (a : A) : St W A := λ w, (Return a, w).

Definition bind {W A B} (m : St W A) (k : A → St W B) : St W B :=
  λ w, match m w with
       | (Return a, w') => k a w'
       | (Raise e, w') => (Raise e, w')
       end.

Definition raise {W A} (e : Exception) : St W A := λ w, (Raise e, w).

#[export] Instance St_ret {W} : MRet (St W) := @ret W.
#[export] Instance St_bind {W} : MBind (St W) := λ A B k m, bind m k.

(** Scores are compared with [<] only. *)
Class ScoreLt (Score : Type) := score_lt : Score → Score → bool.

(** The two methods of [ModelStateTransformer] that [next_candidates] calls:
    [append_candidate(candidate)] and [model(skip_optimization=...)]. *)
Class ModelStateTransformer (Transformer Configuration SurrogateModel : Type) := {
  append_candidate : Transformer → Configuration → Transformer;
  transformer_model : Transformer → bool → SurrogateModel * Transformer
}.

(** The two methods of [DebugLogPrinter] that [_get_next_candidates] calls,
    [set_init_config(config, top_scores)] and
    [set_num_evaluations(num_evaluations)] (utils/debug_log.py is not part
    of the sources at hand): each changes the debug log and may raise. *)
Class DebugLogPrinter (DebugLog Configuration Score : Type) := {
  set_init_config : Configuration → list Score → St DebugLog unit;
  set_num_evaluations : Z → St DebugLog unit
}.

(** References to heap objects. *)
Abbreviation loc := nat.

Section Searcher.

Context {Configuration : Type} `{Countable Configuration}.
Context {SurrogateModel Transformer RandomState Score DebugLog : Type}.
Context `{!ScoreLt Score}.
Context `{!ModelStateTransformer Transformer Configuration SurrogateModel}.
Context `{!DebugLogPrinter DebugLog Configuration Score}.

(** ** Exclusion list *)

(** Modelled from the spec: [HyperparameterRanges] (datatypes/hp_ranges.py is
    not part of the sources at hand).  Only the cardinality of the space is
    needed: [Some n] for a finite space of [n] configurations, [None] for an
    infinite one. *)
Record HyperparameterRanges := { cardinality : option nat }.

(** Modelled from the spec: [ExclusionList] (tuning_algorithms/common.py is
    not part of the sources at hand).  Section 4.2 of the specification: a set
    of configurations with [contains], [add], [copy] and
    [config_space_exhausted], the latter true iff the space is finite and its
    cardinality equals the number of excluded entries.  Membership is that
    of the configuration itself; near-duplicates are the business of the
    duplicate detector. *)
Record ExclusionList := {
  hp_ranges : HyperparameterRanges;
  excl_set : gset Configuration
}.

Definition configspace_size (e : ExclusionList) : option nat :=
  cardinality (hp_ranges e).

Definition empty_list (hp : HyperparameterRanges) : ExclusionList :=
  {| hp_ranges := hp; excl_set := ∅ |}.

Definition contains (e : ExclusionList) (c : Configuration) : bool :=
  bool_decide (c ∈ excl_set e).

Definition add (e : ExclusionList) (c : Configuration) : ExclusionList :=
  {| hp_ranges := hp_ranges e; excl_set := {[ c ]} ∪ excl_set e |}.

Definition config_space_exhausted (e : ExclusionList) : bool :=
  match configspace_size e with
  | Some n => bool_decide (size (excl_set e) = n)
  | None => false
  end.

(** ** The world of mutable objects *)

(** An exclusion list is a mutable Python object: it lives in the heap and is
    passed around by reference ([loc]).  [copy] allocates a new object. *)
Record World := {
  heap : list ExclusionList;
  (** state of the random generator behind [initial_candidates_generator] *)
  random_state : RandomState;
  (** the object behind [pending_candidate_state_transformer]; [None] when
      the field is [None] *)
  transformer : option Transformer;
  (** the object behind [debug_log]; [None] when the field is [None] *)
  debug_log : option DebugLog;
  (** what [logger.warning] has written, oldest first *)
  log : list LogRecord
}.

Abbreviation M := (St World).

Definition set_heap (h : list ExclusionList) (w : World) : World :=
  {| heap := h; random_state := random_state w;
     transformer := transformer w; debug_log := debug_log w; log := log w |}.
Definition set_random_state (r : RandomState) (w : World) : World :=
  {| heap := heap w; random_state := r;
     transformer := transformer w; debug_log := debug_log w; log := log w |}.
Definition set_transformer (t : option Transformer) (w : World) : World :=
  {| heap := heap w; random_state := random_state w;
     transformer := t; debug_log := debug_log w; log := log w |}.
Definition set_debug_log (d : option DebugLog) (w : World) : World :=
  {| heap := heap w; random_state := random_state w;
     transformer := transformer w; debug_log := d; log := log w |}.
Definition set_log (l : list LogRecord) (w : World) : World :=
  {| heap := heap w; random_state := random_state w;
     transformer := transformer w; debug_log := debug_log w; log := l |}.

(** The object a reference points to.  Python has no dangling references; the
    default only makes the function total. *)
Definition deref (h : list ExclusionList) (r : loc) : ExclusionList :=
  default (empty_list {| cardinality := None |}) (h !! r).

Definition read (r : loc) : M ExclusionList :=
  λ w, (Return (deref (heap w) r), w).

(** [r.add(c)]: in-place update of the object at [r]. *)
Definition add_at (r : loc) (c : Configuration) : M unit :=
  λ w, (Return (), set_heap (<[r := add (deref (heap w) r) c]> (heap w)) w).

(** [r.copy()]: a new object with the same contents. *)
Definition copy (r : loc) : M loc :=
  λ w, (Return (length (heap w)),
        set_heap (heap w ++ [deref (heap w) r]) w).

Definition logger_warning (r : LogRecord) : M unit :=
  λ w, (Return (), set_log (log w ++ [r]) w).

Fixpoint for_each {A} (l : list A) (body : A → M unit) : M unit :=
  match l with
  | [] => ret ()
  | x :: l' => body x ;; for_each l' body
  end.

(** ** Collaborators *)

(** [DuplicateDetector.contains(existing_candidates, new_candidate)]. *)
Record DuplicateDetector := {
  dd_contains : ExclusionList → Configuration → bool
}.

(** Modelled from the spec: the two detectors the source names in its comment
    on [_pick_from_locally_optimized] (utils/duplicate_detector.py is not part
    of the sources at hand): one that detects nothing, and one for which a
    duplicate is an exact match in the exclusion list. *)
Definition DuplicateDetectorNoDetection : DuplicateDetector :=
  {| dd_contains := λ _ _, false |}.
Definition DuplicateDetectorIdentical : DuplicateDetector :=
  {| dd_contains := contains |}.

(** "at least DuplicateDetectorIdentical": whatever the exclusion list
    contains is reported as a duplicate. *)
Definition at_least_identical (d : DuplicateDetector) : Prop :=
  ∀ e c, contains e c = true → dd_contains d e c = true.

(** A candidate generator draws from a random state; it reads the exclusion
    list it is given and does not change it.  The second field is
    [generate_unique_candidates(generator, num_candidates, exclusion_list)]
    of tuning_algorithms/common.py for this generator. *)
Record CandidateGenerator := {
  generate_candidates_en_bulk :
    RandomState → Z → ExclusionList → list Configuration * RandomState;
  generate_unique_candidates :
    RandomState → Z → ExclusionList → list Configuration * RandomState
}.

Record ScoringFunction := {
  score : list Configuration → option SurrogateModel → list Score
}.

Record LocalOptimizer := {
  optimize : Configuration → option SurrogateModel → Configuration;
  (** [isinstance(local_optimizer, LBFGSOptimizeAcquisition)] *)
  is_LBFGSOptimizeAcquisition : bool;
  (** the attribute [num_evaluations] of an [LBFGSOptimizeAcquisition] once
      [optimize(cand, model)] has run *)
  num_evaluations : Configuration → option SurrogateModel → Z
}.

(** ** [_order_candidates] *)

(** [sorted(..., key=...)]: a stable sort that compares keys with [<] only.
    An element is inserted after every element that is not greater. *)
Fixpoint insert_by_key {A} (x : Score * A) (l : list (Score * A)) : list (Score * A) :=
  match l with
  | [] => [x]
  | y :: l' => if score_lt x.1 y.1 then x :: y :: l'
               else y :: insert_by_key x l'
  end.

Definition sorted_by_key {A} (l : list (Score * A)) : list (Score * A) :=
  foldl (λ acc x, insert_by_key x acc) [] l.

(** Two scores are tied when neither is less than the other. *)
Definition tied (a b : Score) : bool :=
  negb (score_lt a b) && negb (score_lt b a).

(** [x] may stand before [y] in a list sorted by score. *)
Definition not_after {A} (x y : Score * A) : Prop := score_lt y.1 x.1 = false.

Definition _order_candidates_with_scores
    (candidates : list Configuration) (scoring_function : ScoringFunction)
    (model : option SurrogateModel) : list (Score * Configuration) :=
  match candidates with
  | [] => []
  | _ =>
    let scores := score scoring_function candidates model in
    sorted_by_key (zip scores candidates)
  end.

Definition _order_candidates
    (candidates : list Configuration) (scoring_function : ScoringFunction)
    (model : option SurrogateModel) : list Configuration :=
  (_order_candidates_with_scores candidates scoring_function model).*2.

(** ** [_lazily_locally_optimize] *)

(** The generator, as the list of the pairs it yields, in order.
    [considered_already] is local to the generator's frame. *)
Fixpoint lazily_from (considered_already : ExclusionList)
    (candidates : list Configuration) (local_optimizer : LocalOptimizer)
    (model : option SurrogateModel) : list (Configuration * Configuration) :=
  match candidates with
  | [] => []
  | cand :: rest =>
    if negb (contains considered_already cand) then
      (cand, optimize local_optimizer cand model)
        :: lazily_from (add considered_already cand) rest local_optimizer model
    else lazily_from considered_already rest local_optimizer model
  end.

Definition _lazily_locally_optimize
    (candidates : list Configuration) (local_optimizer : LocalOptimizer)
    (hp : HyperparameterRanges) (model : option SurrogateModel)
    : list (Configuration * Configuration) :=
  lazily_from (empty_list hp) candidates local_optimizer model.

(** ** [_pick_from_locally_optimized] *)

Definition len {A} (l : list A) : Z := Z.of_nat (length l).

(** The [for] loop; besides [result] it hands back what is left of the
    iterator when the loop ends. *)
Fixpoint pick_loop
    (candidates_with_optimization : list (Configuration * Configuration))
    (updated_excludelist : loc) (num_candidates : Z)
    (duplicate_detector : DuplicateDetector) (result : list Configuration)
    : M (list Configuration * list (Configuration * Configuration)) :=
  match candidates_with_optimization with
  | [] => ret (result, [])
  | (original_candidate, optimized_candidate) :: rest =>
    excl ← read updated_excludelist;
    let optimized_is_duplicate := dd_contains duplicate_detector excl optimized_candidate in
    let insert_candidate :=
      if optimized_is_duplicate then
        let original_also_duplicate := dd_contains duplicate_detector excl original_candidate in
        if negb original_also_duplicate then Some original_candidate else None
      else Some optimized_candidate in
    result ← match insert_candidate with
             | Some c => add_at updated_excludelist c ;; ret (result ++ [c])
             | None => ret result
             end;
    if len result =? num_candidates then ret (result, rest)
    else pick_loop rest updated_excludelist num_candidates duplicate_detector result
  end.

Definition _pick_from_locally_optimized
    (candidates_with_optimization : list (Configuration * Configuration))
    (exclusion_candidates : loc) (num_candidates : Z)
    (duplicate_detector : DuplicateDetector) : M (list Configuration) :=
  updated_excludelist ← copy exclusion_candidates;
  '(result, _) ← pick_loop candidates_with_optimization updated_excludelist
                   num_candidates duplicate_detector [];
  ret result.

(** ** [BayesianOptimizationAlgorithm] *)

(** The fields of the named tuple.  [exclusion_candidates] is a reference
    into the heap; the objects of [pending_candidate_state_transformer] and
    of [debug_log] are the [transformer] and the [debug_log] of the world.
    The profiler only measures time and is left out. *)
Record BayesianOptimizationAlgorithm := {
  initial_candidates_generator : CandidateGenerator;
  initial_candidates_scorer : ScoringFunction;
  num_initial_candidates : Z;
  local_optimizer : LocalOptimizer;
  exclusion_candidates : loc;
  num_requested_candidates : Z;
  greedy_batch_selection : bool;
  duplicate_detector : DuplicateDetector;
  sample_unique_candidates : bool
}.

(** Drawing the initial candidates advances the random state. *)
Definition generate_initial_candidates (self : BayesianOptimizationAlgorithm)
    : M (list Configuration) :=
  λ w,
    let excl := deref (heap w) (exclusion_candidates self) in
    let '(cands, rs) :=
      if sample_unique_candidates self then
        generate_unique_candidates (initial_candidates_generator self)
          (random_state w) (num_initial_candidates self) excl
      else
        generate_candidates_en_bulk (initial_candidates_generator self)
          (random_state w) (num_initial_candidates self) excl in
    (Return cands, set_random_state rs w).

(** [self.debug_log is not None] *)
Definition has_debug_log : M bool :=
  λ w, (Return (bool_decide (is_Some (debug_log w))), w).

(** A call of a method of [self.debug_log]. *)
Definition on_debug_log (method : St DebugLog unit) : M unit :=
  λ w, match debug_log w with
       | Some d => let '(out, d') := method d in
                   (out, set_debug_log (Some d') w)
       | None => (Raise AttributeError, w)
       end.

Definition _get_next_candidates (self : BayesianOptimizationAlgorithm)
    (num_candidates : Z) (model : option SurrogateModel)
    : M (list Configuration) :=
  initial_candidates ← generate_initial_candidates self;
  with_debug_log ← has_debug_log;
  initial_candidates ←
    (if with_debug_log then
       let candidates_and_scores :=
         _order_candidates_with_scores initial_candidates
           (initial_candidates_scorer self) model in
       let initial_candidates := candidates_and_scores.*2 in
       (* config = initial_candidates[0] *)
       match initial_candidates with
       | [] => raise IndexError
       | config :: _ =>
         let top_scores := (take 5 candidates_and_scores).*1 in
         on_debug_log (set_init_config config top_scores) ;;
         ret initial_candidates
       end
     else
       ret (_order_candidates initial_candidates
              (initial_candidates_scorer self) model));
  excl ← read (exclusion_candidates self);
  let candidates_with_optimization :=
    _lazily_locally_optimize initial_candidates (local_optimizer self)
      (hp_ranges excl) model in
  candidates_with_optimization ←
    (if with_debug_log && is_LBFGSOptimizeAcquisition (local_optimizer self) then
       (* peek = candidates_with_optimization.__next__(): the first
          candidate has been optimized *)
       match candidates_with_optimization with
       | [] => raise StopIteration
       | peek :: rest =>
         on_debug_log
           (set_num_evaluations
              (num_evaluations (local_optimizer self) peek.1 model)) ;;
         ret (peek :: rest)
       end
     else ret candidates_with_optimization);
  _pick_from_locally_optimized candidates_with_optimization
    (exclusion_candidates self) num_candidates (duplicate_detector self).

Definition num_outer_iterations (self : BayesianOptimizationAlgorithm) : Z :=
  if greedy_batch_selection self then num_requested_candidates self else 1.
Definition num_inner_candidates (self : BayesianOptimizationAlgorithm) : Z :=
  if greedy_batch_selection self then 1 else num_requested_candidates self.

Definition transformer_append_candidate (candidate : Configuration) : M unit :=
  λ w, match transformer w with
       | Some t => (Return (), set_transformer (Some (append_candidate t candidate)) w)
       | None => (Raise AttributeError, w)
       end.

Definition transformer_get_model (skip_optimization : bool) : M SurrogateModel :=
  λ w, match transformer w with
       | Some t => let '(m, t') := transformer_model t skip_optimization in
                   (Return m, set_transformer (Some t') w)
       | None => (Raise AttributeError, w)
       end.

Definition warn_all_selected (self : BayesianOptimizationAlgorithm)
    (candidates : list Configuration) : M unit :=
  excl ← read (exclusion_candidates self);
  logger_warning (WarnAllSelected (configspace_size excl) (length candidates)
                    (num_requested_candidates self)).

(** The [for outer_iter in range(num_outer_iterations)] loop, over the
    values of [outer_iter] still to come; [candidates], [just_added] and
    [model] are the loop's local variables. *)
Fixpoint outer_loop (self : BayesianOptimizationAlgorithm)
    (iterations : list Z) (candidates : list Configuration)
    (just_added : bool) (model : option SurrogateModel)
    : M (list Configuration) :=
  match iterations with
  | [] => ret candidates
  | outer_iter :: iterations' =>
    excl ← read (exclusion_candidates self);
    if just_added && config_space_exhausted excl then
      warn_all_selected self candidates ;; ret candidates
    else
      let just_added := false in
      inner_candidates ← _get_next_candidates self (num_inner_candidates self) model;
      let candidates := candidates ++ inner_candidates in
      '(just_added, model) ←
        (if (outer_iter <? num_outer_iterations self - 1)
              && (0 <? len inner_candidates) then
           for_each inner_candidates (add_at (exclusion_candidates self)) ;;
           for_each inner_candidates transformer_append_candidate ;;
           model ← transformer_get_model true;
           ret (true, Some model)
         else ret (just_added, model));
      if (len inner_candidates <? num_inner_candidates self)
           && (len candidates <? num_requested_candidates self) then
        warn_all_selected self candidates ;; ret candidates
      else outer_loop self iterations' candidates just_added model
  end.

Definition assertion_message : string :=
  "Need pending_candidate_state_transformer for greedy batch selection".

Definition next_candidates (self : BayesianOptimizationAlgorithm)
    : M (list Configuration) :=
  has_transformer ← (λ w, (Return (bool_decide (is_Some (transformer w))), w));
  if negb ((num_outer_iterations self =? 1) || has_transformer) then
    raise (AssertionError assertion_message)
  else
    outer_loop self (seqZ 0 (num_outer_iterations self)) [] true None.

(** ** The selection rule in the specification's words *)

(** The acceptance rule for one (original, refined) pair against the
    configurations excluded or selected so far: the refined point unless it
    is a duplicate, else the original unless it is a duplicate, else
    nothing. *)
Definition accept (duplicate_detector : DuplicateDetector)
    (excluded : ExclusionList) (candidate_pair : Configuration * Configuration)
    : option Configuration :=
  if dd_contains duplicate_detector excluded candidate_pair.2 then
    if dd_contains duplicate_detector excluded candidate_pair.1 then None
    else Some candidate_pair.1
  else Some candidate_pair.2.

(** The selection loop as a function of the contents of the updated
    exclusion list: the accepted configurations, what is left of the stream,
    and the final contents. *)
Fixpoint select (stream : list (Configuration * Configuration))
    (excluded : ExclusionList) (num_candidates : Z)
    (duplicate_detector : DuplicateDetector) (result : list Configuration)
    : list Configuration * list (Configuration * Configuration) * ExclusionList :=
  match stream with
  | [] => (result, [], excluded)
  | candidate_pair :: rest =>
    let '(result, excluded) :=
      match accept duplicate_detector excluded candidate_pair with
      | Some c => (result ++ [c], add excluded c)
      | None => (result, excluded)
      end in
    if len result =? num_candidates then (result, rest, excluded)
    else select rest excluded num_candidates duplicate_detector result
  end.

(** Greedy selection as the documentation describes it: pick one candidate
    at a time; every pick but the last is added to the exclusion list and
    appended to the state transformer, whose model (without refitting) serves
    the next pick.  [remaining] counts the picks still to make. *)
Fixpoint greedy_selection (self : BayesianOptimizationAlgorithm)
    (remaining : nat) (candidates : list Configuration)
    (model : option SurrogateModel) : M (list Configuration) :=
  match remaining with
  | O => mret candidates
  | S remaining' =>
    excl ← read (exclusion_candidates self);
    if config_space_exhausted excl then
      warn_all_selected self candidates ;; mret candidates
    else
      pick ← _get_next_candidates self 1 model;
      match pick with
      | [] => warn_all_selected self candidates ;; mret candidates
      | _ =>
        match remaining' with
        | O => mret (candidates ++ pick)
        | _ =>
          for_each pick (add_at (exclusion_candidates self)) ;;
          for_each pick transformer_append_candidate ;;
          model ← transformer_get_model true;
          greedy_selection self remaining' (candidates ++ pick) (Some model)
        end
      end
  end.

(** What one pick that is not the last does to the state transformer:
    [append_candidate(candidate)], then [model(skip_optimization=True)]. *)
Definition pending_step (t : Transformer) (candidate : Configuration)
    : Transformer :=
  (transformer_model (append_candidate t candidate) true).2.

(** The picks that reach the exclusion list and the state transformer, of
    the [picks] made when [requested] were asked for: all but the last of a
    full batch, all of a batch that stopped short. *)
Definition picks_recorded (requested : nat) (picks : list Configuration)
    : list Configuration :=
  if decide (length picks = requested) then removelast picks else picks.

(** The selection loop with the stopping rule of the specification: stop as
    soon as the requested number is accepted or the stream is exhausted. *)
Fixpoint selection_by_rule (stream : list (Configuration * Configuration))
    (excluded : ExclusionList) (num_candidates : Z)
    (duplicate_detector : DuplicateDetector) (result : list Configuration)
    : list Configuration * list (Configuration * Configuration) * ExclusionList :=
  match stream with
  | [] => (result, [], excluded)
  | candidate_pair :: rest =>
    if len result =? num_candidates then (result, stream, excluded)
    else
      match accept duplicate_detector excluded candidate_pair with
      | Some c =>
        selection_by_rule rest (add excluded c) num_candidates
          duplicate_detector (result ++ [c])
      | None =>
        selection_by_rule rest excluded num_candidates duplicate_detector result
      end
  end.

(** Selection in one go: after the check for an exhausted space, one inner
    selection of [num_requested_candidates] configurations. *)
Definition batch_selection (self : BayesianOptimizationAlgorithm)
    : M (list Configuration) :=
  excl ← read (exclusion_candidates self);
  if config_space_exhausted excl then
    warn_all_selected self [] ;; mret []
  else
    inner ← _get_next_candidates self (num_requested_candidates self) None;
    if len inner <? num_requested_candidates self then
      warn_all_selected self inner ;; mret inner
    else mret inner.

(** The candidates the generator hands to one inner selection, in the order
    it drew them. *)
Definition drawn_candidates (self : BayesianOptimizationAlgorithm) (w : World)
    : list Configuration :=
  (if sample_unique_candidates self then
     generate_unique_candidates (initial_candidates_generator self)
       (random_state w) (num_initial_candidates self)
       (deref (heap w) (exclusion_candidates self))
   else
     generate_candidates_en_bulk (initial_candidates_generator self)
       (random_state w) (num_initial_candidates self)
       (deref (heap w) (exclusion_candidates self))).1.

(** The world once the generator has drawn them: only the random state has
    moved. *)
Definition after_drawing (self : BayesianOptimizationAlgorithm) (w : World)
    : World :=
  set_random_state
    (if sample_unique_candidates self then
       generate_unique_candidates (initial_candidates_generator self)
         (random_state w) (num_initial_candidates self)
         (deref (heap w) (exclusion_candidates self))
     else
       generate_candidates_en_bulk (initial_candidates_generator self)
         (random_state w) (num_initial_candidates self)
         (deref (heap w) (exclusion_candidates self))).2 w.

(** The drawn candidates in the order of their scores. *)
Definition ordered_candidates (self : BayesianOptimizationAlgorithm)
    (model : option SurrogateModel) (w : World) : list Configuration :=
  _order_candidates (drawn_candidates self w) (initial_candidates_scorer self)
    model.

(** The scores of the first five of them, [top_scores]. *)
Definition top_scores (self : BayesianOptimizationAlgorithm)
    (model : option SurrogateModel) (w : World) : list Score :=
  (take 5 (_order_candidates_with_scores (drawn_candidates self w)
             (initial_candidates_scorer self) model)).*1.

(** They and their local optima, as the pairs the producer yields. *)
Definition optimized_stream (self : BayesianOptimizationAlgorithm)
    (model : option SurrogateModel) (w : World)
    : list (Configuration * Configuration) :=
  _lazily_locally_optimize (ordered_candidates self model w)
    (local_optimizer self)
    (hp_ranges (deref (heap w) (exclusion_candidates self))) model.

(** What the two calls on the debug log [d] of one inner selection come to:
    [IndexError] when there is no candidate, else [set_init_config] on the
    best-scored candidate and, for an [LBFGSOptimizeAcquisition],
    [set_num_evaluations] once that candidate has been optimized. *)
Definition debug_log_calls (self : BayesianOptimizationAlgorithm)
    (model : option SurrogateModel) (w : World) (d : DebugLog)
    : Outcome unit * DebugLog :=
  match ordered_candidates self model w with
  | [] => (Raise IndexError, d)
  | config :: _ =>
    match set_init_config config (top_scores self model w) d with
    | (Return _, d1) =>
      if is_LBFGSOptimizeAcquisition (local_optimizer self) then
        set_num_evaluations
          (num_evaluations (local_optimizer self) config model) d1
      else (Return (), d1)
    | (Raise exn, d1) => (Raise exn, d1)
    end
  end.

(** A pair of the stream is used up by a selection that started from the
    exclusion list [excluded] and selected [selected]: its refined point was
    selected, or it was a duplicate for the detector when the pair's turn
    came and the original was selected or was a duplicate then too.
    [updated] is the working copy at that moment, which holds what
    [excluded] holds and some of what was selected. *)
Definition used_up (duplicate_detector : DuplicateDetector)
    (excluded : ExclusionList) (selected : list Configuration)
    (candidate_pair : Configuration * Configuration) : Prop :=
  candidate_pair.2 ∈ selected
  ∨ ∃ updated : ExclusionList,
      hp_ranges updated = hp_ranges excluded
      ∧ excl_set excluded ⊆ excl_set updated
      ∧ excl_set updated ⊆ excl_set excluded ∪ list_to_set selected
      ∧ dd_contains duplicate_detector updated candidate_pair.2 = true
      ∧ (candidate_pair.1 ∈ selected
         ∨ dd_contains duplicate_detector updated candidate_pair.1 = true).

(** An exception that a method of the debug log raises. *)
Definition raised_by_debug_log (exn : Exception) : Prop :=
  (∃ config scores d, (set_init_config config scores d).1 = Raise exn)
  ∨ (∃ num_evals d, (set_num_evaluations num_evals d).1 = Raise exn).

End Searcher.

(** ** Hyperband: the maximum resource level *)

(** Modelled from the spec: the entries of a configuration space
    (search_space.py is not part of the sources at hand): a fixed integer, an
    integer range [randint(lower, upper)], or anything else. *)
Inductive Domain :=
  | FixedInt (value : Z)
  | randint (lower upper : Z)
  | OtherDomain.

(** Modelled from the spec: the inference of [max_t] in the constructor of
    [HyperbandScheduler] (schedulers/hyperband.py is not part of the sources
    at hand).  Section 4.5: [max_t] is inferred from the configuration space
    if not given, and construction fails if it cannot be inferred and none is
    given.  The fields that qualify and their order are those of
    [test_hyperband_max_t_inference]: [epochs], [max_t], [max_epochs], each
    only when bound to a fixed integer. *)
Definition max_t_names : list string := ["epochs"; "max_t"; "max_epochs"]%string.

Fixpoint first_fixed_int (names : list string) (config_space : gmap string Domain)
    : option Z :=
  match names with
  | [] => None
  | name :: names' =>
    match config_space !! name with
    | Some (FixedInt value) => Some value
    | _ => first_fixed_int names' config_space
    end
  end.

Definition infer_max_t (config_space : gmap string Domain) : option Z :=
  first_fixed_int max_t_names config_space.

Definition hyperband_max_t (max_t : option Z) (config_space : gmap string Domain)
    : Outcome Z :=
  match max_t with
  | Some t => Return t
  | None =>
    match infer_max_t config_space with
    | Some t => Return t
    | None => Raise (AssertionError "max_t is not given and cannot be inferred from the configuration space")
    end
  end.

(** The configuration spaces of [test_hyperband_max_t_inference]. *)
Definition config_space1 : gmap string Domain :=
  list_to_map [("epochs", FixedInt 15); ("max_t", FixedInt 14);
               ("max_epochs", FixedInt 13); ("blurb", randint 0 20)]%string.
Definition config_space2 : gmap string Domain :=
  list_to_map [("max_t", FixedInt 14); ("max_epochs", FixedInt 13);
               ("blurb", randint 0 20)]%string.
Definition config_space3 : gmap string Domain :=
  list_to_map [("max_epochs", FixedInt 13); ("blurb", randint 0 20)]%string.
Definition config_space4 : gmap string Domain :=
  list_to_map [("epochs", randint 15 20); ("max_t", FixedInt 14);
               ("max_epochs", FixedInt 13); ("blurb", randint 0 20)]%string.
Definition config_space5 : gmap string Domain :=
  list_to_map [("epochs", randint 15 20); ("max_t", randint 14 21);
               ("max_epochs", FixedInt 13); ("blurb", randint 0 20)]%string.
Definition config_space6 : gmap string Domain :=
  list_to_map [("blurb", randint 0 20)]%string.
Definition config_space7 : gmap string Domain :=
  list_to_map [("epochs", randint 15 20); ("max_t", randint 14 21);
               ("max_epochs", randint 13 22); ("blurb", randint 0 20)]%string.
(** The space of the claim that holds [max_epochs] only. *)
Definition config_space_max_epochs : gmap string Domain :=
  {[ "max_epochs"%string := FixedInt 13 ]}.

(** ** [ConstrainedGPFIFOSearcher._update] *)

Record CandidateEvaluation (Config Float : Type) := {
  candidate : Config;
  metrics : gmap string Float
}.
Arguments candidate {Config Float} _.
Arguments metrics {Config Float} _.

(** What [_update] takes from elsewhere: the [_update] of the superclass
    [MultiModelGPFIFOSearcher], [state_transformer.label_candidate], the
    conversion [float(...)] (which raises on a value that is not a number)
    and the constant [INTERNAL_CONSTRAINT_NAME].  [State] is the mutable state
    of the searcher. *)
Class ConstrainedSearcherBase (State Config Value Float : Type) := {
  super_update : Config → gmap string Value → St State unit;
  label_candidate : CandidateEvaluation Config Float → State → State;
  float : Value → Outcome Float;
  INTERNAL_CONSTRAINT_NAME : string
}.

Section Constrained.

Context {State Config Value Float : Type}.
Context `{!ConstrainedSearcherBase State Config Value Float}.

Record ConstrainedGPFIFOSearcher := { _constraint_attr : string }.

Definition missing_constraint_message (constraint_attr : string) : string :=
  ("Constraint metric " +:+ constraint_attr +:+ " not included in "
   +:+ "reported result. Make sure your evaluation function reports it.")%string.

Definition to_float (value : Value) : St State Float :=
  λ st, (float value, st).

Definition state_transformer_label_candidate
    (evaluation : CandidateEvaluation Config Float) : St State unit :=
  λ st, (Return (), label_candidate evaluation st).

Definition _update (self : ConstrainedGPFIFOSearcher) (config : Config)
    (result : gmap string Value) : St State unit :=
  super_update config result ;;
  match result !! _constraint_attr self with
  | None =>
    raise (AssertionError (missing_constraint_message (_constraint_attr self)))
  | Some value =>
    constr_val ← to_float value;
    let metrics : gmap string Float := {[ INTERNAL_CONSTRAINT_NAME := constr_val ]} in
    state_transformer_label_candidate {| candidate := config; metrics := metrics |}
  end.

End Constrained.

(** ** A small instance

    Configurations of a one-dimensional integer space, named by their value;
    the space has ten of them.  Every local optimization ends in the same
    optimum, all scores are tied, the state transformer keeps the list of
    pending candidates and its model is that list. *)

Module Instance.

Definition hp : HyperparameterRanges := {| cardinality := Some 10%nat |}.

Definition excluded (l : list nat) : @ExclusionList nat _ _ :=
  {| hp_ranges := hp; excl_set := list_to_set l |}.

#[export] Instance score_lt_Z : ScoreLt Z := Z.ltb.

#[export] Instance pending_list : ModelStateTransformer (list nat) nat (list nat) := {
  append_candidate t c := t ++ [c];
  transformer_model t skip_optimization := (t, t)
}.

(** The first [n] configurations of the space that are not excluded. *)
Definition first_free (rs : nat) (n : Z) (e : @ExclusionList nat _ _)
    : list nat * nat :=
  (take (Z.to_nat n) (filter (λ c, contains e c = false) (seq 0 10)), S rs).

Definition generator : @CandidateGenerator nat _ _ nat :=
  {| generate_candidates_en_bulk := first_free;
     generate_unique_candidates := first_free |}.

Definition tied_scores : @ScoringFunction nat (list nat) Z :=
  {| score := λ candidates _, (λ _, 0) <$> candidates |}.

Definition one_optimum : @LocalOptimizer nat (list nat) :=
  {| optimize := λ _ _, 1%nat; is_LBFGSOptimizeAcquisition := false;
     num_evaluations := λ _ _, 0 |}.

Definition algorithm (greedy : bool) (num_initial num_requested : Z)
    : @BayesianOptimizationAlgorithm nat _ _ (list nat) nat Z :=
  {| initial_candidates_generator := generator;
     initial_candidates_scorer := tied_scores;
     num_initial_candidates := num_initial;
     local_optimizer := one_optimum;
     exclusion_candidates := 0%nat;
     num_requested_candidates := num_requested;
     greedy_batch_selection := greedy;
     duplicate_detector := DuplicateDetectorIdentical;
     sample_unique_candidates := false |}.

(** The same algorithm with the detector that detects nothing. *)
Definition algorithm_no_detection (num_initial num_requested : Z)
    : @BayesianOptimizationAlgorithm nat _ _ (list nat) nat Z :=
  {| initial_candidates_generator := generator;
     initial_candidates_scorer := tied_scores;
     num_initial_candidates := num_initial;
     local_optimizer := one_optimum;
     exclusion_candidates := 0%nat;
     num_requested_candidates := num_requested;
     greedy_batch_selection := false;
     duplicate_detector := DuplicateDetectorNoDetection;
     sample_unique_candidates := false |}.

(** A debug log whose state says whether a block is open; it refuses a
    call, with an assertion error, while none is. *)
Definition block_call : St bool unit :=
  λ block_open,
    if block_open then (Return (), block_open)
    else (Raise (AssertionError "no block is open"), block_open).

#[export] Instance block_log : DebugLogPrinter bool nat Z := {
  set_init_config _ _ := block_call;
  set_num_evaluations _ := block_call
}.

(** A world whose only object is the exclusion list, holding [l]; there is
    no debug log. *)
Definition world (l : list nat) (t : option (list nat))
    : @World nat _ _ (list nat) nat bool :=
  {| heap := [excluded l]; random_state := 0%nat; transformer := t;
     debug_log := None; log := [] |}.

(** The same world with a debug log. *)
Definition world_with_debug_log (l : list nat) (t : option (list nat))
    (block_open : bool) : @World nat _ _ (list nat) nat bool :=
  {| heap := [excluded l]; random_state := 0%nat; transformer := t;
     debug_log := Some block_open; log := [] |}.

(** Reported results for [ConstrainedGPFIFOSearcher]: a value is a number or
    a text; the searcher state is the list of labelled evaluations. *)
Inductive ReportedValue :=
  | Number (x : Z)
  | Text (s : string).

#[export] Instance labelled_list
    : ConstrainedSearcherBase (list (CandidateEvaluation nat Z)) nat ReportedValue Z := {
  super_update config result := λ st,
    match result !! "objective"%string with
    | Some (Number x) =>
      (Return (), st ++ [{| candidate := config;
                            metrics := {[ "active_metric"%string := x ]} |}])
    | Some (Text _) => (Raise ValueError, st)
    | None => (Raise (KeyError "objective"), st)
    end;
  label_candidate evaluation st := st ++ [evaluation];
  float value := match value with
                 | Number x => Return x
                 | Text _ => Raise ValueError
                 end;
  INTERNAL_CONSTRAINT_NAME := "constraint_metric"%string
}.

Definition searcher : ConstrainedGPFIFOSearcher :=
  {| _constraint_attr := "my_constraint_metric" |}.

(** Runs that the examples below look at. *)

(** Three requested in one go from three initial candidates, nothing
    excluded. *)
Definition batch_run := next_candidates (algorithm false 3 3) (world [] None).

(** Two requested greedily, nothing excluded, with a state transformer. *)
Definition greedy_run :=
  next_candidates (algorithm true 3 2) (world [] (Some [])).

(** One requested greedily, without a state transformer. *)
Definition greedy_single_run :=
  next_candidates (algorithm true 3 1) (world [] None).

(** None requested, in one go. *)
Definition batch_zero_run := next_candidates (algorithm false 3 0) (world [] None).

(** The whole space excluded. *)
Definition whole_space : list nat := seq 0 10.

(** All of the space excluded but [0] and [9]. *)
Definition nearly_full : list nat := seq 1 8.

(** Five requested greedily when two are left, with a state transformer. *)
Definition exhausting_run :=
  next_candidates (algorithm true 3 5) (world nearly_full (Some [])).

(** A reported result with and without the constraint metric. *)
Definition result_with_constraint : gmap string ReportedValue :=
  {[ "objective"%string := Number 7; "my_constraint_metric"%string := Number 3 ]}.
Definition result_without_constraint : gmap string ReportedValue :=
  {[ "objective"%string := Number 7 ]}.

End Instance.

(** ** The checkpoint example

    [examples/training_scripts/checkpoint_example/checkpoint_example.py]:
    a training script that reports one value per epoch and, when given a
    checkpoint directory, writes a checkpoint after every epoch and resumes
    from the one it finds. *)

(** What [time.sleep] does with a length it does not take: [ValueError] for
    a negative length or NaN, [OverflowError] for one that is too large. *)
Inductive SleepError :=
  | SleepValueError
  | SleepOverflowError.

(** The arithmetic of floats, kept abstract, and what [time.sleep] makes of
    one ([None] when it sleeps and returns). *)
Class FloatArith (F : Type) := {
  float_of_int : Z → F;
  float_add : F → F → F;
  float_mul : F → F → F;
  time_sleep : F → option SleepError
}.

(** A Python number: [current_value] starts as the integer [0] and turns
    into a float as soon as a float takes part. *)
Inductive PyNumber (F : Type) :=
  | PyInt (z : Z)
  | PyFloat (x : F).
Arguments PyInt {F} z.
Arguments PyFloat {F} x.

(** What ends the script early: on a checkpoint that [save_checkpoint] did
    not write, the [KeyError] of [state[key]] and the [TypeError] of [range]
    on a start that is not an integer; in the loop, the error of
    [time.sleep]. *)
Inductive CheckpointError :=
  | CheckpointKeyError (key : string)
  | CheckpointTypeError
  | CheckpointSleepError (e : SleepError).

Section CheckpointExample.

Context {F : Type} `{!FloatArith F}.

Definition py_add (a b : PyNumber F) : PyNumber F :=
  match a, b with
  | PyInt x, PyInt y => PyInt (x + y)
  | PyInt x, PyFloat y => PyFloat (float_add (float_of_int x) y)
  | PyFloat x, PyInt y => PyFloat (float_add x (float_of_int y))
  | PyFloat x, PyFloat y => PyFloat (float_add x y)
  end.

Definition py_mul (a b : PyNumber F) : PyNumber F :=
  match a, b with
  | PyInt x, PyInt y => PyInt (x * y)
  | PyInt x, PyFloat y => PyFloat (float_mul (float_of_int x) y)
  | PyFloat x, PyInt y => PyFloat (float_mul x (float_of_int y))
  | PyFloat x, PyFloat y => PyFloat (float_mul x y)
  end.

(** The checkpoint files, by checkpoint directory: [checkpoint.json] holds a
    JSON object, of which only the numbers matter here ([json.dump] and
    [json.load] give a number back as it was).  What [report] has been
    called with, oldest first, as pairs of [train_acc] and [step]. *)
Record TrainingWorld := {
  checkpoint_files : gmap string (gmap string (PyNumber F));
  reported : list (PyNumber F * Z)
}.

(** The command line as [argparse] reads it: [--num-epochs] is an integer,
    [--multiplier] and [--sleep-time] are floats when they are given;
    [multiplier] is [None] when the option is absent, and [sleep_time] is
    then the float [0.1]. *)
Record TrainingArgs := {
  num_epochs : Z;
  multiplier : option F;
  sleep_time : F;
  smt_checkpoint_dir : option string
}.

(** [args.multiplier]: the default [1] is not converted, it stays the
    integer. *)
Definition args_multiplier (args : TrainingArgs) : PyNumber F :=
  match multiplier args with
  | Some x => PyFloat x
  | None => PyInt 1
  end.

Definition save_checkpoint (checkpoint_dir : string) (epoch : Z)
    (value : PyNumber F) (w : TrainingWorld) : TrainingWorld :=
  {| checkpoint_files :=
       <[checkpoint_dir := {[ "last_epoch"%string := PyInt epoch;
                              "last_value"%string := value ]}]>
         (checkpoint_files w);
     reported := reported w |}.

Definition report (train_acc : PyNumber F) (step : Z) (w : TrainingWorld)
    : TrainingWorld :=
  {| checkpoint_files := checkpoint_files w;
     reported := reported w ++ [(train_acc, step)] |}.

(** The value of the next epoch: [(current_value + 1) * args.multiplier]. *)
Definition next_value (multiplier current_value : PyNumber F) : PyNumber F :=
  py_mul (py_add current_value (PyInt 1)) multiplier.

(** The loop over [range(start_epoch, num_epochs)], over the epochs still to
    run; it ends early when [time.sleep] raises. *)
Fixpoint training_loop (epochs : list Z) (current_value : PyNumber F)
    (args : TrainingArgs) (w : TrainingWorld)
    : option CheckpointError * TrainingWorld :=
  match epochs with
  | [] => (None, w)
  | current_epoch :: epochs' =>
    let current_value := next_value (args_multiplier args) current_value in
    let w := report current_value current_epoch w in
    let w := match smt_checkpoint_dir args with
             | Some checkpoint_dir =>
               save_checkpoint checkpoint_dir current_epoch current_value w
             | None => w
             end in
    match time_sleep (sleep_time args) with
    | Some e => (Some (CheckpointSleepError e), w)
    | None => training_loop epochs' current_value args w
    end
  end.

(** The script: where it finds a checkpoint it starts after the epoch and
    from the value the checkpoint holds, otherwise at epoch [0] from [0]. *)
Definition training_script (args : TrainingArgs) (w : TrainingWorld)
    : option CheckpointError * TrainingWorld :=
  let found :=
    match smt_checkpoint_dir args with
    | Some checkpoint_dir => checkpoint_files w !! checkpoint_dir
    | None => None
    end in
  match found with
  | None => training_loop (seqZ 0 (num_epochs args - 0)) (PyInt 0) args w
  | Some state =>
    match state !! "last_epoch"%string with
    | None => (Some (CheckpointKeyError "last_epoch"), w)
    | Some last_epoch =>
      match state !! "last_value"%string with
      | None => (Some (CheckpointKeyError "last_value"), w)
      | Some current_value =>
        match py_add last_epoch (PyInt 1) with
        | PyInt start_epoch =>
          training_loop (seqZ start_epoch (num_epochs args - start_epoch))
            current_value args w
        | PyFloat _ => (Some CheckpointTypeError, w)
        end
      end
    end
  end.

(** The value reported at the end of the [k]-th epoch of a run from
    scratch. *)
Definition value_after (multiplier : PyNumber F) (k : nat) : PyNumber F :=
  Nat.iter k (next_value multiplier) (PyInt 0).

End CheckpointExample.

(** ** Listing experiments

    [list_experiments] of [sagemaker_tune/experiments.py].  What
    [load_experiment] reads from disk (a data frame, a tuner, the metadata
    as a JSON object) is kept abstract; of the metadata only the lookup of
    the creation timestamp and the default [0] of that lookup are needed. *)

Class MetadataAccess (Metadata Time : Type) := {
  (** [metadata.get(SMT_TUNER_CREATION_TIMESTAMP)] *)
  creation_timestamp : Metadata → option Time;
  (** the [0] that stands in for a missing timestamp *)
  time_zero : Time
}.

Section Experiments.

Context {DataFrame Tuner Metadata Time : Type}.
Context `{!ScoreLt Time} `{!MetadataAccess Metadata Time}.

Record ExperimentResult := {
  name : string;
  results : option DataFrame;
  metadata : option Metadata;
  tuner : option Tuner
}.

(** [exp.results is not None and exp.tuner is not None and
    exp.metadata is not None] *)
Definition is_complete (exp : ExperimentResult) : bool :=
  bool_decide (is_Some (results exp)) && bool_decide (is_Some (tuner exp))
  && bool_decide (is_Some (metadata exp)).

(** [experiment_filter is None or experiment_filter(exp)] *)
Definition passes (experiment_filter : option (ExperimentResult → bool))
    (exp : ExperimentResult) : bool :=
  match experiment_filter with
  | None => true
  | Some f => f exp
  end.

(** The key of the sort, [exp.metadata.get(SMT_TUNER_CREATION_TIMESTAMP, 0)];
    it is only ever taken of experiments that have metadata. *)
Definition creation_key (exp : ExperimentResult) : Time :=
  match metadata exp with
  | Some md => default time_zero (creation_timestamp md)
  | None => time_zero
  end.

(** [sorted(l, key=key, reverse=True)]: the list is reversed, sorted
    stably in ascending order of the keys, and reversed again. *)
Definition sorted_reverse {A} (key : A → Time) (l : list A) : list A :=
  (reverse (sorted_by_key (reverse ((λ x, (key x, x)) <$> l)))).*2.

(** [loaded] holds what [load_experiment] returns for the directories that
    [rglob] finds, in the order in which it finds them. *)
Definition list_experiments
    (experiment_filter : option (ExperimentResult → bool))
    (loaded : list ExperimentResult) : list ExperimentResult :=
  let res :=
    filter (λ exp, passes experiment_filter exp && is_complete exp = true)
      loaded in
  sorted_reverse creation_key res.

End Experiments.

(** ** Parameters of the marginal likelihood

    [get_params] and [set_params] of [MarginalLikelihood] in
    [gpautograd/learncurve/likelihood.py].  The kernel, the mean and the ISS
    model are blocks with [get_params] and [set_params] of their own; the
    encoding of the noise variance is kept abstract. *)

(** [k.startswith(pref)] *)
Definition startswith (pref k : string) : bool := String.prefix pref k.

(** [k[n:]] *)
Fixpoint string_drop (n : nat) (k : string) : string :=
  match n, k with
  | O, _ => k
  | S n', String _ k' => string_drop n' k'
  | S _, EmptyString => EmptyString
  end.

(** [pref + k] is injective in [k]. *)
#[export] Instance string_app_inj (pref : string) :
  Inj (=) (=) (String.append pref).
Proof.
  intros k1 k2. induction pref as [|a pref IH]; cbn; [done|].
  intros [= Heq]. by apply IH.
Qed.

(** A block with parameters: [func.get_params()] and
    [func.set_params(param_dict)], which changes the block and may raise. *)
Class ParameterBlock (C V : Type) := {
  get_params : C → gmap string V;
  set_params : gmap string V → St C unit
}.

(** [get_noise_variance()] and [set_noise_variance(val)] go through the
    encoding of the internal parameter. *)
Class NoiseEncoding (P V : Type) := {
  get_noise_variance : P → V;
  set_noise_variance : V → St P unit
}.

Section Likelihood.

Context {K Mn I P V : Type}.
Context `{!ParameterBlock K V} `{!ParameterBlock Mn V} `{!ParameterBlock I V}.
Context `{!NoiseEncoding P V}.

Record MarginalLikelihood := {
  kernel : K;
  mean : Mn;
  iss_model : I;
  noise_variance_internal : P
}.

(** [{(pref + k): v for k, v in params.items()}] *)
Definition with_prefix (pref : string) (params : gmap string V)
    : gmap string V :=
  kmap (String.append pref) params.

(** [{k[len_pref:]: v for k, v in param_dict.items() if k.startswith(pref)}].
    No two keys that start with [pref] are the same once it is cut off, so
    the order of the items does not matter. *)
Definition stripped_dict (pref : string) (param_dict : gmap string V)
    : gmap string V :=
  list_to_map
    (omap (λ kv : string * V,
             if startswith pref kv.1
             then Some (string_drop (String.length pref) kv.1, kv.2)
             else None)
          (map_to_list param_dict)).

(** [result.update(d)]: the entries of [d] win. *)
Definition dict_update (result d : gmap string V) : gmap string V := d ∪ result.

Definition likelihood_get_params (self : MarginalLikelihood) : gmap string V :=
  let result : gmap string V :=
    {[ "noise_variance"%string := get_noise_variance (noise_variance_internal self) ]} in
  let result := dict_update result (with_prefix "kernel_" (get_params (kernel self))) in
  let result := dict_update result (with_prefix "mean_" (get_params (mean self))) in
  let result := dict_update result (with_prefix "issm_" (get_params (iss_model self))) in
  result.

(** The methods of the parts, run on the whole. *)
Definition on_kernel (m : St K unit) : St MarginalLikelihood unit :=
  λ self, let '(o, k) := m (kernel self) in
          (o, {| kernel := k; mean := mean self; iss_model := iss_model self;
                 noise_variance_internal := noise_variance_internal self |}).
Definition on_mean (m : St Mn unit) : St MarginalLikelihood unit :=
  λ self, let '(o, mn) := m (mean self) in
          (o, {| kernel := kernel self; mean := mn; iss_model := iss_model self;
                 noise_variance_internal := noise_variance_internal self |}).
Definition on_iss_model (m : St I unit) : St MarginalLikelihood unit :=
  λ self, let '(o, i) := m (iss_model self) in
          (o, {| kernel := kernel self; mean := mean self; iss_model := i;
                 noise_variance_internal := noise_variance_internal self |}).
Definition on_noise_variance (m : St P unit) : St MarginalLikelihood unit :=
  λ self, let '(o, p) := m (noise_variance_internal self) in
          (o, {| kernel := kernel self; mean := mean self;
                 iss_model := iss_model self; noise_variance_internal := p |}).

Definition likelihood_set_params (param_dict : gmap string V)
    : St MarginalLikelihood unit :=
  on_kernel (set_params (stripped_dict "kernel_" param_dict)) ;;
  on_mean (set_params (stripped_dict "mean_" param_dict)) ;;
  on_iss_model (set_params (stripped_dict "issm_" param_dict)) ;;
  match param_dict !! "noise_variance"%string with
  | Some val => on_noise_variance (set_noise_variance val)
  | None => raise (KeyError "noise_variance")
  end.

End Likelihood.

(** ** Small instances for the further properties *)

Module Examples.

Import Instance.

(** Candidates scored by their distance to [5]. *)
Definition distance_scores : @ScoringFunction nat (list nat) Z :=
  {| score := λ candidates _, (λ c : nat, Z.abs (Z.of_nat c - 5)) <$> candidates |}.

(** Three candidates that all refine to [1]. *)
Definition stream_to_one : list (nat * nat) := [(0, 1); (1, 1); (2, 1)]%nat.

(** Integers stand in for floats. *)
#[export] Instance integer_floats : FloatArith Z := {
  float_of_int z := z;
  float_add := Z.add;
  float_mul := Z.mul;
  time_sleep x := if x <? 0 then Some SleepValueError else None
}.

(** [--num-epochs n --multiplier 2 --sleep-time s --smt_checkpoint_dir
    trial_0] *)
Definition training_args (n s : Z) : @TrainingArgs Z :=
  {| num_epochs := n; multiplier := Some 2; sleep_time := s;
     smt_checkpoint_dir := Some "trial_0"%string |}.

Definition no_files : @TrainingWorld Z :=
  {| checkpoint_files := ∅; reported := [] |}.

(** Experiments without contents, told apart by name; the metadata is the
    creation time, when there is one. *)
#[export] Instance optional_time : MetadataAccess (option Z) Z := {
  creation_timestamp md := md;
  time_zero := 0
}.

Definition experiment (name : string) (complete : bool) (created : option Z)
    : @ExperimentResult unit unit (option Z) :=
  {| name := name;
     results := if complete then Some () else None;
     metadata := Some created;
     tuner := Some () |}.

Definition loaded_experiments : list (@ExperimentResult unit unit (option Z)) :=
  [experiment "a" true (Some 10); experiment "b" false (Some 40);
   experiment "c" true (Some 30); experiment "d" true None;
   experiment "e" true (Some 30)].

(** Blocks that are their parameters, and a noise variance stored as it
    is. *)
#[export] Instance dictionary_block : ParameterBlock (gmap string Z) Z := {
  get_params block := block;
  set_params param_dict := λ _, (Return (), param_dict)
}.

#[export] Instance plain_noise : NoiseEncoding Z Z := {
  get_noise_variance p := p;
  set_noise_variance val := λ _, (Return (), val)
}.

Definition likelihood
    : @MarginalLikelihood (gmap string Z) (gmap string Z) (gmap string Z) Z :=
  {| kernel := {[ "lengthscale"%string := 3; "mean_shift"%string := 4 ]};
     mean := {[ "mean_value"%string := 5 ]};
     iss_model := {[ "alpha"%string := 6; "kernel_"%string := 7 ]};
     noise_variance_internal := 1 |}.

End Examples.

(** * Properties *)

Section SearcherProperties.

Context {Configuration : Type} `{Countable Configuration}.
Context {SurrogateModel Transformer RandomState Score DebugLog : Type}.
Context `{!ScoreLt Score}.
Context `{!ModelStateTransformer Transformer Configuration SurrogateModel}.
Context `{!DebugLogPrinter DebugLog Configuration Score}.

Local Abbreviation World :=
  (@World Configuration _ _ Transformer RandomState DebugLog).
Local Abbreviation ExclusionList := (@ExclusionList Configuration _ _).
Local Abbreviation Algorithm :=
  (@BayesianOptimizationAlgorithm Configuration _ _ SurrogateModel RandomState Score).

Implicit Types (w : World) (e excl : ExclusionList) (r : loc) (c : Configuration).
Implicit Types (self : Algorithm) (cands result : list Configuration).
Implicit Types (lo : @LocalOptimizer Configuration SurrogateModel).
Implicit Types (model : option SurrogateModel).

(** ** The heap *)

Lemma set_heap_same w : set_heap (heap w) w = w.
Proof. by destruct w. Qed.

Lemma deref_lookup (h : list ExclusionList) r e : h !! r = Some e → deref h r = e.
Proof. unfold deref. by intros ->. Qed.

(** ** The selection loop runs [select] on the object it updates *)

Lemma pick_loop_select stream w r e num dd result :
  heap w !! r = Some e →
  pick_loop stream r num dd result w =
    (Return (select stream e num dd result).1,
     set_heap (<[r := (select stream e num dd result).2]> (heap w)) w).
Proof.
  revert w e result.
  induction stream as [|[original optimized] rest IH]; intros w e result He.
  - cbn. by rewrite (list_insert_id _ _ _ He), set_heap_same.
  - cbn [pick_loop select].
    unfold mbind, St_bind, bind, read. cbn [fst snd].
    rewrite (deref_lookup _ _ _ He).
    unfold accept. cbn [fst snd].
    destruct (dd_contains dd e optimized) eqn:Hopt;
      [destruct (dd_contains dd e original) eqn:Horig|]; cbn.
    + destruct (len result =? num).
      * cbn. by rewrite (list_insert_id _ _ _ He), set_heap_same.
      * by apply IH.
    + rewrite (deref_lookup _ _ _ He).
      destruct (len (result ++ [original]) =? num); [done|].
      rewrite (IH (set_heap _ w) (add e original)).
      * cbn. by rewrite list_insert_insert_eq.
      * cbn. apply list_lookup_insert_eq. by eapply lookup_lt_Some.
    + rewrite (deref_lookup _ _ _ He).
      destruct (len (result ++ [optimized]) =? num); [done|].
      rewrite (IH (set_heap _ w) (add e optimized)).
      * cbn. by rewrite list_insert_insert_eq.
      * cbn. apply list_lookup_insert_eq. by eapply lookup_lt_Some.
Qed.

Lemma pick_from_locally_optimized_run stream r num dd w :
  _pick_from_locally_optimized stream r num dd w =
    (Return (select stream (deref (heap w) r) num dd []).1.1,
     set_heap (heap w ++ [(select stream (deref (heap w) r) num dd []).2]) w).
Proof.
  unfold _pick_from_locally_optimized, copy, mbind, St_bind, bind.
  rewrite (pick_loop_select _ _ _ (deref (heap w) r)).
  - destruct (select _ _ _ _ _) as [[res rest] e'] eqn:Hsel. cbn.
    rewrite insert_app_r_alt by done.
    by rewrite Nat.sub_diag.
  - cbn. by rewrite lookup_app_r, Nat.sub_diag.
Qed.

(** ** What [select] accepts *)

Lemma add_excl_set e c : excl_set (add e c) = {[ c ]} ∪ excl_set e.
Proof. done. Qed.

Lemma contains_true e c : contains e c = true ↔ c ∈ excl_set e.
Proof. unfold contains. apply bool_decide_eq_true. Qed.

Lemma contains_false e c : contains e c = false ↔ c ∉ excl_set e.
Proof. unfold contains. apply bool_decide_eq_false. Qed.

(** The result grows at its end, and the updated list holds what it held
    plus what was accepted. *)
Lemma select_extends stream e num dd result :
  ∃ new, (select stream e num dd result).1.1 = result ++ new
       ∧ excl_set (select stream e num dd result).2
           = excl_set e ∪ list_to_set new
       ∧ hp_ranges (select stream e num dd result).2 = hp_ranges e.
Proof.
  revert e result. induction stream as [|p rest IH]; intros e result.
  - exists []. cbn. rewrite app_nil_r. split_and!; [done|set_solver|done].
  - cbn [select]. destruct (accept dd e p) as [c|].
    + destruct (len (result ++ [c]) =? num).
      * exists [c]. cbn. split_and!; [done|set_solver|done].
      * destruct (IH (add e c) (result ++ [c])) as (new & -> & -> & ->).
        exists (c :: new). rewrite <- app_assoc. cbn.
        split_and!; [done|set_solver|done].
    + destruct (len result =? num).
      * exists []. cbn. rewrite app_nil_r. split_and!; [done|set_solver|done].
      * apply IH.
Qed.

(** An accepted configuration is not a duplicate for the detector. *)
Lemma accept_not_duplicate dd e p c :
  accept dd e p = Some c → dd_contains dd e c = false.
Proof.
  unfold accept. destruct (dd_contains dd e p.2) eqn:Hopt.
  - destruct (dd_contains dd e p.1) eqn:Horig; [done|]. by intros [= <-].
  - by intros [= <-].
Qed.

Lemma accept_fresh dd e p c :
  at_least_identical dd → accept dd e p = Some c → c ∉ excl_set e.
Proof.
  intros Hdd Hacc%accept_not_duplicate. apply contains_false.
  destruct (contains e c) eqn:Hc; [|done].
  apply Hdd in Hc. congruence.
Qed.

(** With a detector that is at least [DuplicateDetectorIdentical], what is
    accepted is new and without repetition. *)
Lemma select_fresh stream e num dd result new :
  at_least_identical dd →
  (select stream e num dd result).1.1 = result ++ new →
  NoDup new ∧ ∀ c, c ∈ new → c ∉ excl_set e.
Proof.
  intros Hdd. revert e result new.
  induction stream as [|p rest IH]; intros e result new.
  - cbn. intros Hnew. assert (new = []) as ->.
    { apply (app_inv_head result). by rewrite app_nil_r. }
    split; [constructor|set_solver].
  - cbn [select]. destruct (accept dd e p) as [c|] eqn:Hacc.
    + pose proof (accept_fresh _ _ _ _ Hdd Hacc) as Hc.
      destruct (len (result ++ [c]) =? num).
      * cbn. intros <-%app_inv_head.
        split; [apply NoDup_singleton|set_solver].
      * destruct (select_extends rest (add e c) num dd (result ++ [c]))
          as (new' & Hnew' & _).
        rewrite Hnew', <- app_assoc. intros <-%app_inv_head.
        destruct (IH _ _ _ Hnew') as [Hnd Hfresh]. cbn.
        split.
        -- constructor; [|done]. intros Hin. apply Hfresh in Hin.
           rewrite add_excl_set in Hin. set_solver.
        -- intros c' [->|Hin]%elem_of_cons; [done|].
           apply Hfresh in Hin. rewrite add_excl_set in Hin. set_solver.
    + destruct (len result =? num).
      * cbn. intros Hnew. assert (new = []) as ->.
        { apply (app_inv_head result). by rewrite app_nil_r. }
        split; [constructor|set_solver].
      * apply IH.
Qed.

(** When fewer than [num_candidates] are held on entry, no more than
    [num_candidates] are held on exit, and fewer only once the stream has
    been consumed to its end. *)
Lemma select_length stream e num dd result :
  len result < num →
  len (select stream e num dd result).1.1 ≤ num
  ∧ (len (select stream e num dd result).1.1 < num →
     (select stream e num dd result).1.2 = []).
Proof.
  revert e result. induction stream as [|p rest IH]; intros e result Hlt.
  - cbn. split; [lia|done].
  - cbn [select]. destruct (accept dd e p) as [c|].
    + destruct (len (result ++ [c]) =? num) eqn:Hlen.
      * apply Z.eqb_eq in Hlen. cbn. lia.
      * apply Z.eqb_neq in Hlen. apply IH.
        unfold len in *. rewrite length_app in *. cbn in *. lia.
    + destruct (len result =? num) eqn:Hlen.
      * apply Z.eqb_eq in Hlen. lia.
      * by apply IH.
Qed.

(** ** One inner selection *)

Lemma set_debug_log_same w : set_debug_log (debug_log w) w = w.
Proof. by destruct w. Qed.

(** The producer starts with the first candidate. *)
Lemma lazily_locally_optimize_cons c candidates lo hp model :
  _lazily_locally_optimize (c :: candidates) lo hp model =
    (c, optimize lo c model)
      :: lazily_from (add (empty_list hp) c) candidates lo model.
Proof. done. Qed.

(** One inner selection, with the branches that cannot be taken removed:
    the candidates are drawn, the debug log, when there is one, is told
    about the best of them, and the selection is made from the lazily
    optimized stream.  The peek at the stream never fails. *)
Lemma get_next_candidates_eq self n model w :
  _get_next_candidates self n model w =
    match debug_log w with
    | None =>
      _pick_from_locally_optimized (optimized_stream self model w)
        (exclusion_candidates self) n (duplicate_detector self)
        (after_drawing self w)
    | Some d =>
      match debug_log_calls self model w d with
      | (Return _, d') =>
        _pick_from_locally_optimized (optimized_stream self model w)
          (exclusion_candidates self) n (duplicate_detector self)
          (set_debug_log (Some d') (after_drawing self w))
      | (Raise exn, d') =>
        (Raise exn, set_debug_log (Some d') (after_drawing self w))
      end
    end.
Proof.
  unfold _get_next_candidates, generate_initial_candidates, debug_log_calls,
    optimized_stream, top_scores, ordered_candidates, drawn_candidates,
    after_drawing, _order_candidates, has_debug_log.
  unfold mbind, St_bind, bind.
  destruct (if sample_unique_candidates self then _ else _) as [initial rs].
  cbn [fst snd debug_log set_random_state].
  destruct (debug_log w) as [d|] eqn:Hd.
  2:{ rewrite bool_decide_eq_false_2 by apply is_Some_None. done. }
  rewrite bool_decide_eq_true_2 by by eexists. cbn [andb].
  destruct ((_order_candidates_with_scores initial _ model).*2)
    as [|config ordered] eqn:Hordered.
  { cbn [raise]. f_equal. rewrite <- Hd. symmetry.
    apply (set_debug_log_same (set_random_state rs w)). }
  unfold on_debug_log at 1. cbn [debug_log set_random_state]. rewrite Hd.
  destruct (set_init_config config _ d) as [[[]|exn] d1]; [|done].
  cbn [ret read fst snd heap set_debug_log set_random_state].
  destruct (is_LBFGSOptimizeAcquisition (local_optimizer self)); [|done].
  rewrite lazily_locally_optimize_cons.
  unfold on_debug_log. cbn [debug_log set_debug_log fst].
  destruct (set_num_evaluations _ d1) as [[[]|exn] d2]; done.
Qed.

(** [_get_next_candidates] leaves the transformer and the log alone, only
    allocates in the heap, and what it returns is what [select] accepts from
    some stream against the exclusion list as it stands. *)
Lemma get_next_candidates_run self n model w out w' :
  _get_next_candidates self n model w = (out, w') →
  transformer w' = transformer w ∧ log w' = log w
  ∧ (∃ ext, heap w' = heap w ++ ext)
  ∧ ∀ cands, out = Return cands →
      ∃ stream,
        cands = (select stream (deref (heap w) (exclusion_candidates self)) n
                   (duplicate_detector self) []).1.1.
Proof.
  rewrite get_next_candidates_eq.
  assert (Hpick : ∀ w1 (o : Outcome (list Configuration)) w2,
    heap w1 = heap w → transformer w1 = transformer w → log w1 = log w →
    _pick_from_locally_optimized (optimized_stream self model w)
      (exclusion_candidates self) n (duplicate_detector self) w1 = (o, w2) →
    transformer w2 = transformer w ∧ log w2 = log w
    ∧ (∃ ext, heap w2 = heap w ++ ext)
    ∧ ∀ cands, o = Return cands →
        ∃ stream,
          cands = (select stream (deref (heap w) (exclusion_candidates self)) n
                     (duplicate_detector self) []).1.1).
  { intros w1 o w2 Hh Ht Hl. rewrite pick_from_locally_optimized_run, Hh.
    intros [= <- <-]. split_and!; [done|done|by eexists|].
    intros cands [= <-]. by eexists. }
  destruct (debug_log w) as [d|].
  - destruct (debug_log_calls self model w d) as [[[]|exn] d'].
    + by apply Hpick.
    + intros [= <- <-]. split_and!; [done|done| |done].
      exists []. cbn. by rewrite app_nil_r.
  - by apply Hpick.
Qed.

(** ** The steps between two selections *)

Lemma for_each_add_at_run cands r w :
  is_Some (heap w !! r) →
  for_each cands (add_at r) w =
    (Return (), set_heap (<[r := foldl add (deref (heap w) r) cands]> (heap w)) w).
Proof.
  revert w. induction cands as [|c cands IH]; intros w [e He].
  - cbn. rewrite (deref_lookup _ _ _ He).
    by rewrite (list_insert_id _ _ _ He), set_heap_same.
  - cbn [for_each foldl]. unfold mbind, St_bind, bind, add_at at 1.
    assert (Hlt : (r < length (heap w))%nat) by by eapply lookup_lt_Some.
    rewrite IH.
    + cbn [heap set_heap]. rewrite list_insert_insert_eq.
      unfold deref at 1. by rewrite list_lookup_insert_eq.
    + cbn. rewrite list_lookup_insert_eq by done. by eexists.
Qed.

Lemma for_each_append_run cands w :
  for_each cands transformer_append_candidate w =
    match transformer w, cands with
    | Some t, _ =>
      (Return (), set_transformer (Some (foldl append_candidate t cands)) w)
    | None, [] => (Return (), w)
    | None, _ :: _ => (Raise AttributeError, w)
    end.
Proof.
  revert w. induction cands as [|c cands IH]; intros w.
  - cbn. destruct w as [h rs [t|] l]; done.
  - cbn [for_each foldl].
    unfold mbind, St_bind, bind, transformer_append_candidate at 1.
    destruct (transformer w) as [t|] eqn:Ht; [|done].
    rewrite IH. done.
Qed.

(** ** The outer loop *)

(** One inner selection of a single candidate returns at most one. *)
Lemma get_next_candidates_single self model w cands w' :
  _get_next_candidates self 1 model w = (Return cands, w') →
  cands = [] ∨ ∃ c, cands = [c].
Proof.
  intros Hrun. apply get_next_candidates_run in Hrun as (_ & _ & _ & Hsel).
  destruct (Hsel cands eq_refl) as [stream ->].
  pose proof (select_length stream
    (deref (heap w) (exclusion_candidates self)) 1 (duplicate_detector self) [])
    as [Hle _]; [done|].
  destruct (select _ _ _ _ _).1.1 as [|c [|c' l]]; [by left|by right; exists c|].
  unfold len in Hle. cbn in Hle. lia.
Qed.

(** In greedy mode the loop, entered with [just_added] set, is the greedy
    selection of the remaining picks. *)
Lemma outer_loop_greedy self (n : nat) k candidates model w :
  greedy_batch_selection self = true →
  k + Z.of_nat n = num_requested_candidates self →
  len candidates = k →
  outer_loop self (seqZ k (Z.of_nat n)) candidates true model w =
    greedy_selection self n candidates model w.
Proof.
  intros Hgreedy. revert k candidates model w.
  induction n as [|n IH]; intros k candidates model w Hk Hlen; [done|].
  rewrite seqZ_cons by lia.
  replace (Z.pred (Z.of_nat (S n))) with (Z.of_nat n) by lia.
  cbn [outer_loop greedy_selection].
  unfold num_inner_candidates, num_outer_iterations. rewrite Hgreedy.
  unfold mbind, St_bind, bind, read. cbn [andb].
  destruct (config_space_exhausted _); [done|].
  destruct (_get_next_candidates self 1 model w) as [[pick|e] w1] eqn:Hpick;
    [|done].
  destruct (get_next_candidates_single _ _ _ _ _ Hpick) as [->|[c ->]].
  - rewrite andb_false_r. cbn [ret]. rewrite app_nil_r.
    replace (len [] <? 1) with true by done.
    replace (len candidates <? num_requested_candidates self) with true
      by (symmetry; apply Z.ltb_lt; lia).
    done.
  - replace (0 <? len [c]) with true by done. rewrite andb_true_r.
    replace (len [c] <? 1) with false by done. cbn [andb].
    assert (Hlen' : len (candidates ++ [c]) = Z.succ k).
    { unfold len in *. rewrite length_app. cbn. lia. }
    destruct n as [|n].
    + replace (k <? num_requested_candidates self - 1) with false
        by (symmetry; apply Z.ltb_ge; lia).
      done.
    + replace (k <? num_requested_candidates self - 1) with true
        by (symmetry; apply Z.ltb_lt; lia).
      unfold mbind, St_bind, bind.
      destruct (for_each [c] (add_at _) w1) as [[[]|e] w2]; [|done].
      destruct (for_each [c] transformer_append_candidate w2) as [[[]|e] w3];
        [|done].
      destruct (transformer_get_model true w3) as [[model'|e] w4]; [|done].
      cbn [ret]. apply IH; [lia|done].
Qed.

Lemma next_candidates_greedy self w :
  greedy_batch_selection self = true →
  is_Some (transformer w) ∨ num_requested_candidates self = 1 →
  next_candidates self w =
    greedy_selection self (Z.to_nat (num_requested_candidates self)) [] None w.
Proof.
  intros Hgreedy Hassert.
  unfold next_candidates, num_outer_iterations at 1.
  unfold mbind, St_bind, bind. rewrite Hgreedy.
  replace ((num_requested_candidates self =? 1)
           || bool_decide (is_Some (transformer w))) with true.
  2:{ symmetry. apply orb_true_iff. destruct Hassert as [Ht| ->]; [right|by left].
      by apply bool_decide_eq_true. }
  cbn [negb]. unfold num_outer_iterations. rewrite Hgreedy.
  destruct (Z.le_gt_cases (num_requested_candidates self) 0) as [Hle|Hgt].
  - replace (Z.to_nat (num_requested_candidates self)) with 0%nat by lia.
    unfold seqZ. by replace (Z.to_nat (num_requested_candidates self)) with 0%nat by lia.
  - rewrite <- (Z2Nat.id (num_requested_candidates self)) at 1 by lia.
    apply outer_loop_greedy; [done|lia|done].
Qed.

Lemma next_candidates_greedy_assertion self w :
  greedy_batch_selection self = true →
  transformer w = None → num_requested_candidates self ≠ 1 →
  next_candidates self w = (Raise (AssertionError assertion_message), w).
Proof.
  intros Hgreedy Ht Hne.
  unfold next_candidates, num_outer_iterations.
  unfold mbind, St_bind, bind. rewrite Hgreedy, Ht.
  replace (num_requested_candidates self =? 1) with false
    by (symmetry; by apply Z.eqb_neq).
  by rewrite bool_decide_eq_false_2 by apply is_Some_None.
Qed.

Lemma next_candidates_batch self w :
  greedy_batch_selection self = false →
  next_candidates self w = batch_selection self w.
Proof.
  intros Hgreedy.
  unfold next_candidates, batch_selection, num_outer_iterations.
  rewrite Hgreedy. unfold mbind, St_bind, bind.
  change (1 =? 1) with true. cbn [orb negb].
  change (seqZ 0 1) with [0]. cbn [outer_loop].
  unfold num_inner_candidates, num_outer_iterations. rewrite Hgreedy.
  unfold mbind, St_bind, bind, read. cbn [andb app].
  change (0 <? 1 - 1) with false. cbn [andb].
  destruct (config_space_exhausted _); [done|].
  destruct (_get_next_candidates _ _ _ _) as [[inner|e] w1]; [|done].
  cbn. by destruct (len inner <? num_requested_candidates self).
Qed.

(** ** Invariants of the selection *)

Lemma foldl_add_excl_set e cands :
  excl_set (foldl add e cands) = excl_set e ∪ list_to_set cands.
Proof.
  revert e. induction cands as [|c cands IH]; intros e; cbn.
  - set_solver.
  - rewrite IH, add_excl_set. set_solver.
Qed.

Lemma get_next_candidates_frame self n model w out w' r :
  is_Some (heap w !! r) →
  _get_next_candidates self n model w = (out, w') →
  heap w' !! r = heap w !! r
  ∧ transformer w' = transformer w ∧ log w' = log w.
Proof.
  intros [e He] (Ht & Hl & [ext Hh] & _)%get_next_candidates_run.
  split_and!; [|done..].
  rewrite Hh. by rewrite (lookup_app_l_Some _ _ _ _ He).
Qed.

Lemma get_next_candidates_fresh self n model w cands w' :
  at_least_identical (duplicate_detector self) →
  _get_next_candidates self n model w = (Return cands, w') →
  NoDup cands
  ∧ ∀ c, c ∈ cands → c ∉ excl_set (deref (heap w) (exclusion_candidates self)).
Proof.
  intros Hdd (_ & _ & _ & Hsel)%get_next_candidates_run.
  destruct (Hsel cands eq_refl) as [stream Hcands].
  by apply (select_fresh stream _ n _ [] cands Hdd).
Qed.

Lemma get_next_candidates_length self n model w cands w' :
  1 ≤ n →
  _get_next_candidates self n model w = (Return cands, w') →
  len cands ≤ n.
Proof.
  intros Hn (_ & _ & _ & Hsel)%get_next_candidates_run.
  destruct (Hsel cands eq_refl) as [stream ->].
  apply select_length. unfold len. cbn. lia.
Qed.

Lemma deref_eq (h h' : list ExclusionList) r :
  h' !! r = h !! r → deref h' r = deref h r.
Proof. unfold deref. by intros ->. Qed.

(** The greedy selection keeps what it has selected apart: every
    configuration selected so far is in the exclusion list when the next one
    is picked. *)
Lemma greedy_selection_distinct self n candidates model w cands w'
    (E0 : gset Configuration) :
  at_least_identical (duplicate_detector self) →
  is_Some (heap w !! exclusion_candidates self) →
  NoDup candidates →
  (∀ c, c ∈ candidates →
        c ∈ excl_set (deref (heap w) (exclusion_candidates self)) ∧ c ∉ E0) →
  E0 ⊆ excl_set (deref (heap w) (exclusion_candidates self)) →
  greedy_selection self n candidates model w = (Return cands, w') →
  NoDup cands ∧ ∀ c, c ∈ cands → c ∉ E0.
Proof.
  intros Hdd. revert candidates model w.
  induction n as [|n IH]; intros candidates model w Hvalid Hnd Hin HE0.
  { cbn. intros [= <- <-]. split; [done|]. intros c Hc. by apply Hin. }
  cbn [greedy_selection]. unfold mbind, St_bind, bind, read.
  destruct (config_space_exhausted _).
  { cbn. intros [= <- <-]. split; [done|]. intros c Hc. by apply Hin. }
  destruct (_get_next_candidates self 1 model w) as [[pick|e] w1] eqn:Hpick;
    [|done].
  destruct (get_next_candidates_frame _ _ _ _ _ _ _ Hvalid Hpick)
    as (Hheap & _ & _).
  destruct (get_next_candidates_fresh _ _ _ _ _ _ Hdd Hpick) as [Hnd' Hfresh].
  assert (Happ : NoDup (candidates ++ pick)
                 ∧ ∀ c, c ∈ candidates ++ pick → c ∉ E0).
  { split.
    - apply NoDup_app. split_and!; [done| |done].
      intros c Hc Hc'. apply Hfresh in Hc'. apply Hin in Hc. tauto.
    - intros c [Hc|Hc]%elem_of_app; [by apply Hin|].
      apply Hfresh in Hc. set_solver. }
  destruct pick as [|c0 pick0].
  { cbn. intros [= <- <-]. split; [done|]. intros c Hc. by apply Hin. }
  destruct n as [|n].
  { cbn. by intros [= <- <-]. }
  set (pick := c0 :: pick0) in *.
  assert (Hvalid1 : is_Some (heap w1 !! exclusion_candidates self))
    by by rewrite Hheap.
  rewrite (for_each_add_at_run _ _ _ Hvalid1).
  rewrite for_each_append_run. cbn [transformer set_heap].
  destruct (transformer w1) as [t|]; [|done].
  unfold transformer_get_model. cbn [transformer set_transformer set_heap].
  destruct (transformer_model _ true) as [model' t'].
  apply IH.
  - cbn. apply lookup_lt_is_Some. rewrite length_insert.
    by apply lookup_lt_is_Some.
  - apply Happ.
  - cbn. unfold deref at 1.
    rewrite list_lookup_insert_eq by by apply lookup_lt_is_Some.
    cbn. rewrite foldl_add_excl_set, (deref_eq _ _ _ Hheap).
    intros c Hc. split; [|by apply Happ].
    apply elem_of_app in Hc as [Hc|Hc]; [apply Hin in Hc|]; set_solver.
  - cbn. unfold deref at 1.
    rewrite list_lookup_insert_eq by by apply lookup_lt_is_Some.
    cbn. rewrite foldl_add_excl_set, (deref_eq _ _ _ Hheap). set_solver.
Qed.

Lemma batch_selection_run self w out w' :
  batch_selection self w = (out, w') →
  (∃ ext, heap w' = heap w ++ ext) ∧ transformer w' = transformer w
  ∧ ∀ cands, out = Return cands →
      (cands = [] ∨ ∃ w1, _get_next_candidates self
                            (num_requested_candidates self) None w
                          = (Return cands, w1))
      ∧ (len cands < num_requested_candidates self →
         ∃ size, log w' = log w ++ [WarnAllSelected size (length cands)
                                       (num_requested_candidates self)]).
Proof.
  unfold batch_selection, mbind, St_bind, bind, read.
  destruct (config_space_exhausted _).
  { cbn. intros [= <- <-]. cbn. split_and!; [|done|].
    - exists []. by rewrite app_nil_r.
    - intros cands [= <-]. split; [by left|]. by eexists. }
  destruct (_get_next_candidates _ _ _ _) as [[inner|e] w1] eqn:Hinner.
  - apply get_next_candidates_run in Hinner as Hrun.
    destruct Hrun as (Ht & Hl & Hh & _).
    destruct (len inner <? num_requested_candidates self) eqn:Hlen.
    + cbn. intros [= <- <-]. cbn. split_and!; [done..|].
      intros cands [= <-]. split; [right; by eexists|].
      intros _. rewrite Hl. by eexists.
    + cbn. intros [= <- <-]. split_and!; [done..|].
      intros cands [= <-]. split; [right; by eexists|].
      apply Z.ltb_ge in Hlen. lia.
  - apply get_next_candidates_run in Hinner as (Ht & Hl & Hh & _).
    intros [= <- <-]. done.
Qed.

Lemma for_each_add_at_heap_only cands r w :
  ∃ h, for_each cands (add_at r) w = (Return (), set_heap h w).
Proof.
  revert w. induction cands as [|c cands IH]; intros w.
  - exists (heap w). cbn. by rewrite set_heap_same.
  - cbn [for_each]. unfold mbind, St_bind, bind, add_at at 1.
    destruct (IH (set_heap (<[r:=add (deref (heap w) r) c]> (heap w)) w))
      as [h ->].
    by exists h.
Qed.

(** The greedy selection makes at most [remaining] picks, and stops short
    only with a warning. *)
Lemma greedy_selection_length self n candidates model w cands w' :
  greedy_selection self n candidates model w = (Return cands, w') →
  (length cands ≤ length candidates + n)%nat
  ∧ ((length cands < length candidates + n)%nat →
     ∃ size, log w' = log w ++ [WarnAllSelected size (length cands)
                                   (num_requested_candidates self)]).
Proof.
  revert candidates model w.
  induction n as [|n IH]; intros candidates model w.
  { cbn. intros [= <- <-]. lia. }
  cbn [greedy_selection]. unfold mbind, St_bind, bind, read.
  destruct (config_space_exhausted _).
  { cbn. intros [= <- <-]. cbn. split; [lia|]. intros _. by eexists. }
  destruct (_get_next_candidates self 1 model w) as [[pick|e] w1] eqn:Hpick;
    [|done].
  apply get_next_candidates_run in Hpick as Hrun.
  destruct Hrun as (_ & Hl & _ & _).
  destruct (get_next_candidates_single _ _ _ _ _ Hpick) as [->|[c ->]].
  { cbn. intros [= <- <-]. cbn. split; [lia|]. intros _. rewrite Hl. by eexists. }
  destruct n as [|n].
  { cbn. intros [= <- <-]. rewrite length_app. cbn. lia. }
  destruct (for_each_add_at_heap_only [c] (exclusion_candidates self) w1)
    as [h ->].
  rewrite for_each_append_run. cbn [transformer set_heap].
  destruct (transformer w1) as [t|]; [|done].
  unfold transformer_get_model. cbn [transformer set_transformer set_heap].
  destruct (transformer_model _ true) as [model' t'].
  intros Hrec. apply IH in Hrec. cbn in Hrec. rewrite Hl in Hrec.
  rewrite length_app in Hrec. cbn in Hrec.
  destruct Hrec as [Hle Hwarn]. split; [lia|].
  intros Hlt. apply Hwarn. lia.
Qed.

(** ** What [next_candidates] returns *)

(** C1: with a duplicate detector that is at least
    [DuplicateDetectorIdentical], no configuration returned by
    [next_candidates] is in the exclusion list as it stood when the call was
    made, and no configuration is returned twice. *)
Theorem next_candidates_new_and_distinct self w cands w' :
  at_least_identical (duplicate_detector self) →
  is_Some (heap w !! exclusion_candidates self) →
  next_candidates self w = (Return cands, w') →
  NoDup cands
  ∧ ∀ c, c ∈ cands →
         contains (deref (heap w) (exclusion_candidates self)) c = false.
Proof.
  intros Hdd Hvalid.
  destruct (greedy_batch_selection self) eqn:Hgreedy.
  - destruct (transformer w) as [t|] eqn:Ht.
    + rewrite next_candidates_greedy by (rewrite ?Ht; eauto).
      intros Hrun.
      eapply (greedy_selection_distinct _ _ _ _ _ _ _
                (excl_set (deref (heap w) (exclusion_candidates self))))
        in Hrun; [|done|done|constructor|set_solver|done].
      destruct Hrun as [Hnd Hfresh]. split; [done|].
      intros c Hc. by apply contains_false, Hfresh.
    + destruct (decide (num_requested_candidates self = 1)) as [Hone|Hne].
      * rewrite next_candidates_greedy by eauto.
        intros Hrun.
        eapply (greedy_selection_distinct _ _ _ _ _ _ _
                  (excl_set (deref (heap w) (exclusion_candidates self))))
          in Hrun; [|done|done|constructor|set_solver|done].
        destruct Hrun as [Hnd Hfresh]. split; [done|].
        intros c Hc. by apply contains_false, Hfresh.
      * by rewrite next_candidates_greedy_assertion.
  - rewrite next_candidates_batch by done.
    intros (_ & _ & Hcands)%batch_selection_run.
    destruct (Hcands cands eq_refl) as [[->|[w1 Hinner]] _].
    + split; [constructor|]. by intros c Hc%elem_of_nil.
    + destruct (get_next_candidates_fresh _ _ _ _ _ _ Hdd Hinner)
        as [Hnd Hfresh].
      split; [done|]. intros c Hc. by apply contains_false, Hfresh.
Qed.

(** C10: when the batch is selected in one go, [next_candidates] only
    allocates in the heap; the exclusion list it was given holds after the
    call what it held before, whether the call returns or raises. *)
Theorem batch_selection_keeps_exclusion_list self w out w' :
  greedy_batch_selection self = false →
  is_Some (heap w !! exclusion_candidates self) →
  next_candidates self w = (out, w') →
  heap w' !! exclusion_candidates self = heap w !! exclusion_candidates self
  ∧ ∃ allocated, heap w' = heap w ++ allocated.
Proof.
  intros Hgreedy [e He]. rewrite next_candidates_batch by done.
  intros ([ext Hh] & _)%batch_selection_run. split; [|by eexists].
  rewrite Hh, He. by apply lookup_app_l_Some.
Qed.

(** ** The lazy producer of locally optimized candidates *)

Lemma lazily_from_originals considered candidates lo model c :
  c ∈ (lazily_from considered candidates lo model).*1 ↔
  c ∈ candidates ∧ c ∉ excl_set considered.
Proof.
  revert considered. induction candidates as [|cand rest IH]; intros considered.
  - cbn. set_solver.
  - cbn [lazily_from]. destruct (contains considered cand) eqn:Hc; cbn [negb].
    + apply contains_true in Hc. rewrite IH. set_solver.
    + apply contains_false in Hc. cbn. rewrite elem_of_cons, IH, add_excl_set.
      destruct (decide (c = cand)) as [->|Hne]; set_solver.
Qed.

Lemma lazily_from_NoDup considered candidates lo model :
  NoDup (lazily_from considered candidates lo model).*1.
Proof.
  revert considered. induction candidates as [|cand rest IH]; intros considered.
  - constructor.
  - cbn [lazily_from]. destruct (contains considered cand) eqn:Hc; cbn [negb].
    + apply IH.
    + cbn. constructor; [|apply IH].
      rewrite lazily_from_originals, add_excl_set. set_solver.
Qed.

Lemma lazily_from_optimized considered candidates lo model :
  Forall (λ p, p.2 = optimize lo p.1 model)
         (lazily_from considered candidates lo model).
Proof.
  revert considered. induction candidates as [|cand rest IH]; intros considered.
  - constructor.
  - cbn [lazily_from]. destruct (contains considered cand); cbn [negb].
    + apply IH.
    + constructor; [done|apply IH].
Qed.

(** C9: the producer skips repeated candidates.  The originals of the pairs
    it yields are pairwise distinct, they are exactly the configurations of
    the input, and each pair holds an original with its local optimum; so
    no configuration is locally optimized more than once. *)
Theorem lazily_locally_optimize_distinct candidates lo hp model :
  NoDup (_lazily_locally_optimize candidates lo hp model).*1
  ∧ (∀ c, c ∈ (_lazily_locally_optimize candidates lo hp model).*1 ↔ c ∈ candidates)
  ∧ Forall (λ p, p.2 = optimize lo p.1 model)
           (_lazily_locally_optimize candidates lo hp model).
Proof.
  unfold _lazily_locally_optimize. split_and!.
  - apply lazily_from_NoDup.
  - intros c. rewrite lazily_from_originals. cbn. set_solver.
  - apply lazily_from_optimized.
Qed.

(** ** Greedy selection and the state it leaves *)

Lemma picks_recorded_nil n : picks_recorded n ([] : list Configuration) = [].
Proof. unfold picks_recorded. by case_decide. Qed.

Lemma picks_recorded_last c : picks_recorded 1 [c] = [].
Proof. unfold picks_recorded. by case_decide. Qed.

Lemma picks_recorded_cons n c picks :
  picks_recorded (S (S n)) (c :: picks) = c :: picks_recorded (S n) picks.
Proof.
  unfold picks_recorded. cbn [length].
  destruct (decide (length picks = S n)) as [Heq|Hne].
  - rewrite decide_True by lia. by destruct picks.
  - by rewrite decide_False by lia.
Qed.

Lemma greedy_selection_state self n candidates model w cands w' t :
  is_Some (heap w !! exclusion_candidates self) →
  transformer w = Some t →
  greedy_selection self n candidates model w = (Return cands, w') →
  ∃ picks,
    cands = candidates ++ picks ∧ (length picks ≤ n)%nat
    ∧ excl_set (deref (heap w') (exclusion_candidates self))
        = excl_set (deref (heap w) (exclusion_candidates self))
          ∪ list_to_set (picks_recorded n picks)
    ∧ transformer w' = Some (foldl pending_step t (picks_recorded n picks)).
Proof.
  revert candidates model w t cands w'.
  induction n as [|n IH]; intros candidates model w t cands w' Hvalid Ht.
  { cbn. intros [= <- <-]. exists []. rewrite app_nil_r, picks_recorded_nil.
    split_and!; [done|done|set_solver|done]. }
  cbn [greedy_selection]. unfold mbind, St_bind, bind, read.
  destruct (config_space_exhausted _).
  { cbn. intros [= <- <-]. exists []. rewrite app_nil_r, picks_recorded_nil.
    split_and!; [done|cbn; lia|set_solver|done]. }
  destruct (_get_next_candidates self 1 model w) as [[pick|e] w1] eqn:Hpick;
    [|done].
  destruct (get_next_candidates_frame _ _ _ _ _ _ _ Hvalid Hpick)
    as (Hheap & Ht1 & _).
  pose proof (deref_eq _ _ _ Hheap) as Hderef.
  destruct (get_next_candidates_single _ _ _ _ _ Hpick) as [->|[c ->]].
  { cbn. intros [= <- <-]. exists []. rewrite app_nil_r. cbn [heap set_log].
    rewrite Hderef, picks_recorded_nil.
    split_and!; [done|cbn; lia|set_solver|cbn; congruence]. }
  destruct n as [|n].
  { cbn. intros [= <- <-]. exists [c]. rewrite Hderef, picks_recorded_last.
    split_and!; [done|done|set_solver|cbn; congruence]. }
  assert (Hvalid1 : is_Some (heap w1 !! exclusion_candidates self))
    by by rewrite Hheap.
  rewrite (for_each_add_at_run _ _ _ Hvalid1).
  rewrite for_each_append_run. cbn [transformer set_heap].
  rewrite Ht1, Ht. unfold transformer_get_model.
  cbn [transformer set_transformer set_heap foldl].
  destruct (transformer_model (append_candidate t c) true) as [model' t']
    eqn:Hmodel.
  intros Hrec. eapply IH in Hrec as (picks & -> & Hlen & Hexcl & Htr).
  2:{ cbn. apply lookup_lt_is_Some. rewrite length_insert.
      by apply lookup_lt_is_Some. }
  2:{ done. }
  exists (c :: picks). rewrite <- app_assoc.
  rewrite picks_recorded_cons, Hexcl, Htr.
  split_and!; [done|cbn; lia| |].
  - cbn [heap set_heap set_transformer]. unfold deref at 1.
    rewrite list_lookup_insert_eq by by apply lookup_lt_is_Some.
    cbn. rewrite Hderef. set_solver.
  - cbn [foldl]. unfold pending_step at 3. by rewrite Hmodel.
Qed.


(** ** The selection loop against the rule of the specification *)

(** As long as the number requested is not already held on entry, the loop
    of the code is the loop that stops as soon as enough are accepted. *)
Lemma select_by_rule stream e num dd result :
  len result ≠ num →
  select stream e num dd result = selection_by_rule stream e num dd result.
Proof.
  revert e result. induction stream as [|p rest IH]; intros e result Hne;
    [done|].
  cbn [select selection_by_rule].
  replace (len result =? num) with false by (symmetry; by apply Z.eqb_neq).
  destruct (accept dd e p) as [c|].
  2:{ replace (len result =? num) with false by (symmetry; by apply Z.eqb_neq).
      by apply IH. }
  destruct (len (result ++ [c]) =? num) eqn:Hlen.
  - destruct rest as [|p' rest']; [done|].
    cbn [selection_by_rule]. by rewrite Hlen.
  - apply IH. by apply Z.eqb_neq.
Qed.

Lemma pick_from_locally_optimized_by_rule stream r num dd w :
  num ≠ 0 →
  _pick_from_locally_optimized stream r num dd w =
    (Return (selection_by_rule stream (deref (heap w) r) num dd []).1.1,
     set_heap (heap w ++ [(selection_by_rule stream (deref (heap w) r) num dd []).2]) w).
Proof.
  intros Hnum. rewrite pick_from_locally_optimized_run.
  by rewrite select_by_rule by (unfold len; cbn; lia).
Qed.

End SearcherProperties.

(** ** [sorted] is a stable sort *)

Section Sorting.

Context {Score A : Type} `{!ScoreLt Score}.

(** The order [<] on scores is a strict weak order, as it is on floats that
    are numbers. *)
Hypothesis score_lt_asym :
  ∀ a b : Score, score_lt a b = true → score_lt b a = false.
Hypothesis score_lt_negtrans :
  ∀ a b c : Score,
    score_lt a c = true → score_lt a b = true ∨ score_lt b c = true.

Implicit Types (x y : Score * A) (l acc : list (Score * A)) (k : Score).

Lemma score_lt_irrefl (a : Score) : score_lt a a = false.
Proof.
  destruct (score_lt a a) eqn:Ha; [|done].
  by rewrite (score_lt_asym _ _ Ha) in Ha.
Qed.

Lemma tied_trans (a b c : Score) :
  tied a b = true → tied a c = true → tied b c = true.
Proof.
  unfold tied. rewrite !andb_true_iff, !negb_true_iff.
  intros [Hab Hba] [Hac Hca]. split.
  - destruct (score_lt b c) eqn:Hbc; [|done].
    destruct (score_lt_negtrans _ a _ Hbc); congruence.
  - destruct (score_lt c b) eqn:Hcb; [|done].
    destruct (score_lt_negtrans _ a _ Hcb); congruence.
Qed.

Lemma insert_by_key_perm x l : insert_by_key x l ≡ₚ x :: l.
Proof.
  induction l as [|y l IH]; [done|].
  cbn. destruct (score_lt x.1 y.1); [done|].
  rewrite IH. apply Permutation_swap.
Qed.

Lemma sorted_by_key_from_perm acc l :
  foldl (λ acc x, insert_by_key x acc) acc l ≡ₚ acc ++ l.
Proof.
  revert acc. induction l as [|x l IH]; intros acc; cbn.
  - by rewrite app_nil_r.
  - rewrite IH, insert_by_key_perm. apply Permutation_middle.
Qed.

(** The sorted list holds the same elements. *)
Lemma sorted_by_key_perm l : sorted_by_key l ≡ₚ l.
Proof. apply (sorted_by_key_from_perm [] l). Qed.

Lemma insert_by_key_sorted x l :
  StronglySorted not_after l → StronglySorted not_after (insert_by_key x l).
Proof.
  induction l as [|y l IH]; intros Hsorted.
  - repeat constructor.
  - apply StronglySorted_inv in Hsorted as [Hl Hy].
    cbn. destruct (score_lt x.1 y.1) eqn:Hxy.
    + constructor; [by constructor|].
      assert (Hyx : not_after x y) by by apply score_lt_asym.
      constructor; [done|].
      eapply Forall_impl; [exact Hy|].
      intros z Hz. unfold not_after in *.
      destruct (score_lt z.1 x.1) eqn:Hzx; [|done].
      destruct (score_lt_negtrans _ y.1 _ Hzx); congruence.
    + constructor; [by apply IH|].
      rewrite insert_by_key_perm. by constructor.
Qed.

Lemma sorted_by_key_from_sorted acc l :
  StronglySorted not_after acc →
  StronglySorted not_after (foldl (λ acc x, insert_by_key x acc) acc l).
Proof.
  revert acc. induction l as [|x l IH]; intros acc Hacc; [done|].
  cbn. by apply IH, insert_by_key_sorted.
Qed.

(** The sorted list is in ascending order of score. *)
Lemma sorted_by_key_sorted l : StronglySorted not_after (sorted_by_key l).
Proof. apply sorted_by_key_from_sorted. constructor. Qed.

Lemma insert_by_key_stable k x l :
  StronglySorted not_after l →
  filter (λ y, tied k y.1 = true) (insert_by_key x l)
  = filter (λ y, tied k y.1 = true) l ++ filter (λ y, tied k y.1 = true) [x].
Proof.
  induction l as [|y l IH]; intros Hsorted; [done|].
  apply StronglySorted_inv in Hsorted as [Hl Hy].
  cbn [insert_by_key]. destruct (score_lt x.1 y.1) eqn:Hxy.
  - destruct (tied k x.1) eqn:Hkx.
    + assert (Hnone : Forall (λ z, tied k z.1 ≠ true) (y :: l)).
      { assert (Hyl : Forall (not_after y) (y :: l)).
        { constructor; [apply score_lt_irrefl|done]. }
        eapply Forall_impl; [exact Hyl|].
        intros z Hz Hkz. unfold not_after in Hz.
        pose proof (tied_trans _ _ _ Hkx Hkz) as Hxz.
        unfold tied in Hxz. apply andb_true_iff in Hxz as [Hxz _].
        apply negb_true_iff in Hxz.
        destruct (score_lt_negtrans _ z.1 _ Hxy); congruence. }
      rewrite (filter_cons_True _ x) by done.
      rewrite (filter_cons_True _ x []) by done.
      assert (filter (λ y0, tied k y0.1 = true) (y :: l) = []) as ->; [|done].
      clear -Hnone. induction Hnone as [|z l' Hz _ IH']; [done|].
      by rewrite filter_cons_False.
    + rewrite (filter_cons_False _ x) by congruence.
      rewrite (filter_cons_False _ x []) by congruence.
      by rewrite app_nil_r.
  - rewrite !(filter_cons _ y). rewrite IH by done.
    by destruct (decide (tied k y.1 = true)).
Qed.

Lemma sorted_by_key_from_stable k acc l :
  StronglySorted not_after acc →
  filter (λ y, tied k y.1 = true) (foldl (λ acc x, insert_by_key x acc) acc l)
  = filter (λ y, tied k y.1 = true) acc ++ filter (λ y, tied k y.1 = true) l.
Proof.
  revert acc. induction l as [|x l IH]; intros acc Hacc; cbn [foldl].
  - by rewrite app_nil_r.
  - rewrite IH by by apply insert_by_key_sorted.
    rewrite insert_by_key_stable by done.
    rewrite <- app_assoc. f_equal.
    rewrite (filter_cons _ x l), (filter_cons _ x []).
    by destruct (decide (tied k x.1 = true)).
Qed.

(** The sort is stable: the elements whose scores are tied come out in the
    order they went in. *)
Lemma sorted_by_key_stable k l :
  filter (λ y, tied k y.1 = true) (sorted_by_key l)
  = filter (λ y, tied k y.1 = true) l.
Proof. apply (sorted_by_key_from_stable k [] l). constructor. Qed.

End Sorting.

(** Ordering the candidates neither loses nor invents one, as long as the
    scoring function returns one score for each. *)
Lemma order_candidates_perm {Configuration SurrogateModel Score : Type}
    `{!ScoreLt Score} (candidates : list Configuration)
    (scoring_function : @ScoringFunction Configuration SurrogateModel Score)
    (model : option SurrogateModel) :
  length (score scoring_function candidates model) = length candidates →
  _order_candidates candidates scoring_function model ≡ₚ candidates.
Proof.
  intros Hlen. unfold _order_candidates, _order_candidates_with_scores.
  destruct candidates as [|c candidates]; [done|].
  rewrite sorted_by_key_perm. by rewrite snd_zip by lia.
Qed.

(** The order of the integers, used for the scores of the small instance,
    is a strict weak order. *)
Lemma Z_ltb_strict_weak :
  (∀ a b : Z, @score_lt Z Instance.score_lt_Z a b = true →
              @score_lt Z Instance.score_lt_Z b a = false)
  ∧ (∀ a b c : Z, @score_lt Z Instance.score_lt_Z a c = true →
                  @score_lt Z Instance.score_lt_Z a b = true
                  ∨ @score_lt Z Instance.score_lt_Z b c = true).
Proof.
  unfold score_lt, Instance.score_lt_Z. split.
  - intros a b Hab%Z.ltb_lt. apply Z.ltb_ge. lia.
  - intros a b c Hac%Z.ltb_lt. destruct (Z.ltb_spec a b); [by left|right].
    apply Z.ltb_lt. lia.
Qed.

(** ** Hyperband: inference of [max_t] *)

Lemma first_fixed_int_none names (config_space : gmap string Domain) :
  (∀ name value, name ∈ names → config_space !! name ≠ Some (FixedInt value)) →
  first_fixed_int names config_space = None.
Proof.
  induction names as [|name names IH]; intros Hnone; [done|].
  cbn. destruct (config_space !! name) as [[value| |]|] eqn:Hname.
  - exfalso. apply (Hnone name value); [left|done].
  - apply IH. intros name' value Hin. apply Hnone. by right.
  - apply IH. intros name' value Hin. apply Hnone. by right.
  - apply IH. intros name' value Hin. apply Hnone. by right.
Qed.

(** An explicit [max_t] is taken as it is. *)
Lemma hyperband_max_t_given t (config_space : gmap string Domain) :
  hyperband_max_t (Some t) config_space = Return t.
Proof. done. Qed.

(** C7: without an explicit [max_t], the space
    [{epochs: 15, max_t: 14, max_epochs: 13}] gives 15, a space with
    [max_epochs: 13] only gives 13, and a space in which none of [epochs],
    [max_t], [max_epochs] is a fixed integer makes the construction fail
    with an assertion error. *)
Theorem hyperband_max_t_inference :
  hyperband_max_t None config_space1 = Return 15
  ∧ hyperband_max_t None config_space_max_epochs = Return 13
  ∧ hyperband_max_t None config_space3 = Return 13
  ∧ ∀ config_space : gmap string Domain,
      (∀ name value, name ∈ max_t_names →
                     config_space !! name ≠ Some (FixedInt value)) →
      ∃ msg, hyperband_max_t None config_space = Raise (AssertionError msg).
Proof.
  split_and!; [done..|].
  intros config_space Hnone. unfold hyperband_max_t, infer_max_t.
  rewrite first_fixed_int_none by done. by eexists.
Qed.

(** The other cases of [test_hyperband_max_t_inference]. *)
Lemma hyperband_max_t_test_cases :
  hyperband_max_t None config_space2 = Return 14
  ∧ hyperband_max_t None config_space4 = Return 14
  ∧ hyperband_max_t None config_space5 = Return 13
  ∧ (∃ msg, hyperband_max_t None config_space6 = Raise (AssertionError msg))
  ∧ (∃ msg, hyperband_max_t None config_space7 = Raise (AssertionError msg))
  ∧ Forall (λ config_space, hyperband_max_t (Some 10) config_space = Return 10)
      [config_space1; config_space2; config_space3; config_space4;
       config_space5; config_space6; config_space7].
Proof.
  split_and!; [done|done|done|by eexists|by eexists|].
  repeat constructor.
Qed.

(** ** The constrained searcher *)

Section ConstrainedProperties.

Context {State Config Value Float : Type}.
Context `{!ConstrainedSearcherBase State Config Value Float}.

Implicit Types (self : ConstrainedGPFIFOSearcher) (config : Config).
Implicit Types (result : gmap string Value) (st : State).


End ConstrainedProperties.

(** * Further properties of the selection *)

Section SelectionProperties.

Context {Configuration : Type} `{Countable Configuration}.
Context {SurrogateModel Transformer RandomState Score DebugLog : Type}.
Context `{!ScoreLt Score}.
Context `{!ModelStateTransformer Transformer Configuration SurrogateModel}.
Context `{!DebugLogPrinter DebugLog Configuration Score}.

Local Abbreviation World :=
  (@World Configuration _ _ Transformer RandomState DebugLog).
Local Abbreviation ExclusionList := (@ExclusionList Configuration _ _).
Local Abbreviation Algorithm :=
  (@BayesianOptimizationAlgorithm Configuration _ _ SurrogateModel RandomState Score).

Implicit Types (w : World) (e excl : ExclusionList) (r : loc) (c : Configuration).
Implicit Types (self : Algorithm) (cands result : list Configuration).
Implicit Types (lo : @LocalOptimizer Configuration SurrogateModel).
Implicit Types (model : option SurrogateModel).
Implicit Types (stream : list (Configuration * Configuration)).

(** ** The producer keeps the order of its input *)

Lemma lazily_from_sublist considered candidates lo model :
  (lazily_from considered candidates lo model).*1 `sublist_of` candidates.
Proof.
  revert considered. induction candidates as [|cand rest IH]; intros considered.
  - constructor.
  - cbn [lazily_from]. destruct (contains considered cand); cbn [negb].
    + apply sublist_cons, IH.
    + cbn. apply sublist_skip, IH.
Qed.

(** The originals of the yielded pairs follow one another as in the input
    (so the best-scored candidate is refined first), and the stream is empty
    only for an empty input. *)
Theorem lazily_locally_optimize_in_order candidates lo hp model :
  (_lazily_locally_optimize candidates lo hp model).*1 `sublist_of` candidates
  ∧ head (_lazily_locally_optimize candidates lo hp model).*1 = head candidates
  ∧ (_lazily_locally_optimize candidates lo hp model = [] ↔ candidates = []).
Proof.
  unfold _lazily_locally_optimize. split_and!.
  - apply lazily_from_sublist.
  - by destruct candidates.
  - by destruct candidates.
Qed.

(** ** What one inner selection raises and returns *)

(** What the calls on the debug log raise. *)
Lemma debug_log_calls_raise self model w (d d' : DebugLog) exn :
  debug_log_calls self model w d = (Raise exn, d') →
  (exn = IndexError ∧ ordered_candidates self model w = [] ∧ d' = d)
  ∨ ∃ config rest,
      ordered_candidates self model w = config :: rest
      ∧ ((set_init_config config (top_scores self model w) d).1 = Raise exn
         ∨ ∃ d1,
             set_init_config config (top_scores self model w) d = (Return (), d1)
             ∧ is_LBFGSOptimizeAcquisition (local_optimizer self) = true
             ∧ (set_num_evaluations
                  (num_evaluations (local_optimizer self) config model) d1).1
               = Raise exn).
Proof.
  unfold debug_log_calls.
  destruct (ordered_candidates self model w) as [|config rest].
  { intros [= <- <-]. by left. }
  intros Hcalls. right. exists config, rest. split; [done|].
  destruct (set_init_config config _ d) as [[[]|exn1] d1].
  - right. exists d1. split; [done|].
    destruct (is_LBFGSOptimizeAcquisition (local_optimizer self)); [|done].
    split; [done|]. by rewrite Hcalls.
  - left. by injection Hcalls as -> _.
Qed.

Lemma debug_log_calls_raised_by self model w (d d' : DebugLog) exn :
  debug_log_calls self model w d = (Raise exn, d') →
  exn = IndexError ∨ raised_by_debug_log exn.
Proof.
  intros [(-> & _)|(config & rest & _ & [Hinit|(d1 & _ & _ & Hnum)])]%debug_log_calls_raise.
  - by left.
  - right. left. by do 3 eexists.
  - right. right. by do 2 eexists.
Qed.

(** An inner selection that raises has a debug log, and raises what the
    calls on it raise. *)
Lemma get_next_candidates_raise self n model w exn w' :
  _get_next_candidates self n model w = (Raise exn, w') →
  ∃ d d', debug_log w = Some d
          ∧ debug_log_calls self model w d = (Raise exn, d')
          ∧ w' = set_debug_log (Some d') (after_drawing self w).
Proof.
  rewrite get_next_candidates_eq. destruct (debug_log w) as [d|].
  - destruct (debug_log_calls self model w d) as [[[]|exn1] d'] eqn:Hcalls.
    + by rewrite pick_from_locally_optimized_run.
    + intros [= <- <-]. by exists d, d'.
  - by rewrite pick_from_locally_optimized_run.
Qed.

(** An inner selection neither installs nor removes the debug log. *)
Lemma get_next_candidates_debug_log self n model w out w' :
  _get_next_candidates self n model w = (out, w') →
  is_Some (debug_log w') ↔ is_Some (debug_log w).
Proof.
  rewrite get_next_candidates_eq. destruct (debug_log w) as [d|] eqn:Hd.
  - destruct (debug_log_calls self model w d) as [[[]|exn1] d'].
    + rewrite pick_from_locally_optimized_run. intros [= <- <-]. cbn.
      split; by eexists.
    + intros [= <- <-]. cbn. split; by eexists.
  - rewrite pick_from_locally_optimized_run. intros [= <- <-].
    unfold after_drawing. cbn. by rewrite Hd.
Qed.


Lemma accept_from_pair dd e (p : Configuration * Configuration) c :
  accept dd e p = Some c → c = p.1 ∨ c = p.2.
Proof.
  unfold accept. destruct (dd_contains dd e p.2).
  - destruct (dd_contains dd e p.1); [done|]. intros [= <-]. by left.
  - intros [= <-]. by right.
Qed.

Lemma select_from_stream stream e num dd result c :
  c ∈ (select stream e num dd result).1.1 →
  c ∈ result ∨ ∃ p, p ∈ stream ∧ (c = p.1 ∨ c = p.2).
Proof.
  revert e result. induction stream as [|p rest IH]; intros e result.
  - cbn. by left.
  - cbn [select]. destruct (accept dd e p) as [c'|] eqn:Hacc.
    + apply accept_from_pair in Hacc.
      assert (Hhere : c ∈ result ++ [c'] →
                c ∈ result ∨ ∃ p0, p0 ∈ p :: rest ∧ (c = p0.1 ∨ c = p0.2)).
      { intros [Hc|Hc%list_elem_of_singleton]%elem_of_app; [by left|].
        right. exists p. subst c. split; [left|done]. }
      destruct (len (result ++ [c']) =? num); [exact Hhere|].
      intros [Hc|(p0 & Hp0 & Hc)]%IH; [by apply Hhere|].
      right. exists p0. split; [by right|done].
    + destruct (len result =? num); [by left|].
      intros [Hc|(p0 & Hp0 & Hc)]%IH; [by left|].
      right. exists p0. split; [by right|done].
Qed.

Lemma order_candidates_subset candidates (sf : @ScoringFunction Configuration SurrogateModel Score)
    model c :
  c ∈ _order_candidates candidates sf model → c ∈ candidates.
Proof.
  unfold _order_candidates, _order_candidates_with_scores.
  destruct candidates as [|c0 candidates]; [done|].
  rewrite sorted_by_key_perm.
  intros [[s c'] [-> Hin]]%list_elem_of_fmap. cbn.
  by apply elem_of_zip_r in Hin.
Qed.

(** Every configuration an inner selection returns is one of the candidates
    the generator drew, or the local optimum of one. *)
Theorem get_next_candidates_provenance self n model w cands w' c :
  _get_next_candidates self n model w = (Return cands, w') →
  c ∈ cands →
  ∃ c0, c0 ∈ drawn_candidates self w
        ∧ (c = c0 ∨ c = optimize (local_optimizer self) c0 model).
Proof.
  rewrite get_next_candidates_eq.
  assert (Hpick : ∀ w1,
    _pick_from_locally_optimized (optimized_stream self model w)
      (exclusion_candidates self) n (duplicate_detector self) w1
      = (Return cands, w') →
    c ∈ cands →
    ∃ c0, c0 ∈ drawn_candidates self w
          ∧ (c = c0 ∨ c = optimize (local_optimizer self) c0 model));
    [|destruct (debug_log w) as [d|];
      [destruct (debug_log_calls self model w d) as [[[]|exn] d'];
        [apply Hpick|done]
      |apply Hpick]].
  intros w1.
  rewrite pick_from_locally_optimized_run. intros [= <- <-].
  intros [[]%elem_of_nil|(p & Hp & Hc)]%select_from_stream.
  unfold optimized_stream, _lazily_locally_optimize in Hp.
  pose proof (proj1 (Forall_forall _ _)
                (lazily_from_optimized _ _ _ _) p Hp) as Hp2.
  cbn in Hp2.
  exists p.1. split.
  - eapply order_candidates_subset.
    eapply (proj1 (lazily_from_originals _ _ (local_optimizer self) model _)).
    apply list_elem_of_fmap. by exists p.
  - destruct Hc as [->| ->]; [by left|by right].
Qed.

(** ** The final selection *)

(** [_pick_from_locally_optimized] never touches the exclusion list it is
    given: it allocates one object, its working copy, which ends up holding
    what the given list holds plus the configurations returned. *)
Theorem pick_from_locally_optimized_works_on_copy stream r num dd w :
  ∃ cands updated,
    _pick_from_locally_optimized stream r num dd w
      = (Return cands, set_heap (heap w ++ [updated]) w)
    ∧ excl_set updated = excl_set (deref (heap w) r) ∪ list_to_set cands
    ∧ hp_ranges updated = hp_ranges (deref (heap w) r).
Proof.
  rewrite pick_from_locally_optimized_run.
  destruct (select_extends stream (deref (heap w) r) num dd [])
    as (new & Hnew & Hexcl & Hhp).
  do 2 eexists. split; [done|]. by rewrite Hnew.
Qed.

Lemma select_no_detection stream e num result :
  len result < num →
  (select stream e num DuplicateDetectorNoDetection result).1.1
    = result ++ take (Z.to_nat (num - len result)) stream.*2.
Proof.
  revert e result. induction stream as [|p rest IH]; intros e result Hlt.
  - cbn. by rewrite take_nil, app_nil_r.
  - cbn [select accept dd_contains DuplicateDetectorNoDetection].
    assert (Hlen : len (result ++ [p.2]) = len result + 1).
    { unfold len. rewrite length_app. cbn. lia. }
    replace (Z.to_nat (num - len result))
      with (S (Z.to_nat (num - len (result ++ [p.2])))) by lia.
    cbn [fmap list_fmap take]. destruct (len (result ++ [p.2]) =? num) eqn:Hnum.
    + apply Z.eqb_eq in Hnum. cbn.
      replace (Z.to_nat (num - len (result ++ [p.2]))) with 0%nat by lia.
      by rewrite take_0.
    + apply Z.eqb_neq in Hnum. rewrite IH by lia.
      by rewrite <- app_assoc.
Qed.

(** With [DuplicateDetectorNoDetection] nothing is filtered: for a request
    of at least one, what comes back is the refined points of the first
    [num_candidates] pairs, whatever the exclusion list holds. *)
Theorem pick_from_locally_optimized_no_detection stream r num w :
  1 ≤ num →
  (_pick_from_locally_optimized stream r num DuplicateDetectorNoDetection w).1
    = Return (take (Z.to_nat num) stream.*2).
Proof.
  intros Hnum. rewrite pick_from_locally_optimized_run. cbn [fst].
  rewrite select_no_detection by (unfold len; cbn; lia).
  unfold len. cbn. by rewrite Z.sub_0_r.
Qed.

Lemma filter_agree {A} (P Q : A → Prop) `{!∀ x, Decision (P x)}
    `{!∀ x, Decision (Q x)} (l : list A) :
  (∀ x, x ∈ l → P x ↔ Q x) → filter P l = filter Q l.
Proof.
  induction l as [|x l IH]; intros Hagree; [done|].
  rewrite !filter_cons.
  rewrite IH by (intros y Hy; apply Hagree; by right).
  destruct (decide (P x)) as [HP|HP].
  - rewrite decide_True; [done|]. apply Hagree; [by left|done].
  - rewrite decide_False; [done|]. intros HQ. apply HP, Hagree; [by left|done].
Qed.

Lemma filter_none {A} (P : A → Prop) `{!∀ x, Decision (P x)} (l : list A) :
  (∀ x, x ∈ l → ¬ P x) → filter P l = [].
Proof.
  induction l as [|x l IH]; intros Hnone; [done|].
  rewrite filter_cons, decide_False by (apply Hnone; by left).
  apply IH. intros y Hy. apply Hnone. by right.
Qed.

(** Adding one configuration to the exclusion list blocks at most one more
    original of a stream without repeated originals. *)
Lemma blocked_after_add stream e c :
  NoDup stream.*1 →
  (length (filter (λ p, p.1 ∈ excl_set (add e c)) stream)
   ≤ S (length (filter (λ p, p.1 ∈ excl_set e) stream)))%nat.
Proof.
  induction stream as [|p rest IH]; intros Hnd; [cbn; lia|].
  cbn in Hnd. apply NoDup_cons in Hnd as [Hp Hnd].
  rewrite !filter_cons, add_excl_set.
  destruct (decide (p.1 ∈ excl_set e)) as [Hin|Hout].
  - rewrite decide_True by set_solver. cbn. specialize (IH Hnd).
    rewrite add_excl_set in IH. lia.
  - destruct (decide (p.1 = c)) as [<-|Hne].
    + rewrite decide_True by set_solver. cbn.
      assert (filter (λ p0, p0.1 ∈ ({[p.1]} ∪ excl_set e)) rest
              = filter (λ p0, p0.1 ∈ excl_set e) rest) as ->; [|lia].
      apply filter_agree. intros p0 Hp0.
      assert (p0.1 ≠ p.1).
      { intros Heq. apply Hp. rewrite <- Heq.
        apply list_elem_of_fmap. by exists p0. }
      set_solver.
    + rewrite decide_False by set_solver. specialize (IH Hnd).
      rewrite add_excl_set in IH. lia.
Qed.

Lemma accept_identical_none e (p : Configuration * Configuration) :
  accept DuplicateDetectorIdentical e p = None → p.1 ∈ excl_set e.
Proof.
  unfold accept. cbn. destruct (contains e p.2); [|done].
  destruct (contains e p.1) eqn:Hc; [|done]. intros _. by apply contains_true.
Qed.

Lemma select_identical_half stream e num result :
  NoDup stream.*1 →
  ∃ new,
    (select stream e num DuplicateDetectorIdentical result).1.1 = result ++ new
    ∧ (len (result ++ new) = num
       ∨ (length stream
          ≤ 2 * length new
            + length (filter (λ p, p.1 ∈ excl_set e) stream))%nat).
Proof.
  revert e result. induction stream as [|p rest IH]; intros e result Hnd.
  { exists []. cbn. rewrite app_nil_r. split; [done|right; lia]. }
  pose proof Hnd as Hnd0.
  cbn in Hnd. apply NoDup_cons in Hnd as [Hp Hnd].
  cbn [select]. destruct (accept DuplicateDetectorIdentical e p) as [c|] eqn:Hacc.
  - destruct (len (result ++ [c]) =? num) eqn:Hlen.
    + exists [c]. cbn. split; [done|]. left. by apply Z.eqb_eq.
    + destruct (IH (add e c) (result ++ [c]) Hnd) as (new & -> & Hcount).
      exists (c :: new). rewrite <- app_assoc. cbn [app]. split; [done|].
      destruct Hcount as [Hfull|Hhalf].
      * left. by rewrite <- app_assoc in Hfull.
      * right. pose proof (blocked_after_add rest e c Hnd) as Hblock.
        rewrite filter_cons. cbn [length].
        destruct (decide (p.1 ∈ excl_set e)); cbn [length]; lia.
  - apply accept_identical_none in Hacc.
    destruct (len result =? num) eqn:Hlen.
    + exists []. cbn. rewrite app_nil_r. split; [done|]. left.
      by apply Z.eqb_eq.
    + destruct (IH e result Hnd) as (new & -> & Hcount).
      exists new. split; [done|].
      destruct Hcount as [Hfull|Hhalf]; [by left|right].
      rewrite filter_cons, decide_True by done. cbn [length]. lia.
Qed.

(** With [DuplicateDetectorIdentical], a stream of pairwise distinct
    originals none of which is excluded yields the requested number, or at
    least one configuration for every two pairs: a refined point can stand
    in the way of one later original at most. *)
Theorem pick_from_locally_optimized_at_least_half stream r num w :
  NoDup stream.*1 →
  (∀ p, p ∈ stream → contains (deref (heap w) r) p.1 = false) →
  ∃ cands,
    (_pick_from_locally_optimized stream r num DuplicateDetectorIdentical w).1
      = Return cands
    ∧ (len cands = num ∨ (length stream ≤ 2 * length cands)%nat).
Proof.
  intros Hnd Hfree. rewrite pick_from_locally_optimized_run. cbn [fst].
  destruct (select_identical_half stream (deref (heap w) r) num [] Hnd)
    as (new & -> & Hcount).
  exists new. split; [done|]. cbn [app] in Hcount.
  destruct Hcount as [Hfull|Hhalf]; [by left|right].
  assert (filter (λ p, p.1 ∈ excl_set (deref (heap w) r)) stream = []) as Hnone.
  { apply filter_none. intros p Hp Hin. specialize (Hfree p Hp).
    by apply contains_false in Hfree. }
  rewrite Hnone in Hhalf. cbn in Hhalf. lia.
Qed.

(** ** What [next_candidates] raises and logs *)

Lemma greedy_selection_raise self n candidates model w exn w' :
  is_Some (transformer w) ∨ (n ≤ 1)%nat →
  greedy_selection self n candidates model w = (Raise exn, w') →
  is_Some (debug_log w) ∧ (exn = IndexError ∨ raised_by_debug_log exn).
Proof.
  revert candidates model w.
  induction n as [|n IH]; intros candidates model w Hsafe; [done|].
  cbn [greedy_selection]. unfold mbind, St_bind, bind, read.
  destruct (config_space_exhausted _); [done|].
  destruct (_get_next_candidates self 1 model w) as [[pick|exn1] w1] eqn:Hpick.
  2:{ intros [= <- <-].
      apply get_next_candidates_raise in Hpick as (d & d' & Hd & Hcalls & _).
      split; [by eexists|]. by eapply debug_log_calls_raised_by. }
  apply get_next_candidates_debug_log in Hpick as Hdebug.
  apply get_next_candidates_run in Hpick as (Ht & _).
  destruct pick as [|c pick]; [done|].
  destruct n as [|n]; [done|].
  destruct Hsafe as [[t Hsome]|Hle]; [|lia].
  destruct (for_each_add_at_heap_only (c :: pick) (exclusion_candidates self) w1)
    as [h ->].
  rewrite for_each_append_run. cbn [transformer set_heap].
  rewrite Ht, Hsome. unfold transformer_get_model.
  cbn [transformer set_transformer set_heap].
  destruct (transformer_model _ true) as [model' t'].
  intros [Hlog Hexn]%IH; [|left; by eexists].
  split; [|done]. apply Hdebug. exact Hlog.
Qed.


Lemma greedy_selection_log self n candidates model w cands w' :
  greedy_selection self n candidates model w = (Return cands, w') →
  (length cands = (length candidates + n)%nat ∧ log w' = log w)
  ∨ ((length cands < length candidates + n)%nat
     ∧ ∃ size, log w' = log w ++ [WarnAllSelected size (length cands)
                                   (num_requested_candidates self)]).
Proof.
  revert candidates model w.
  induction n as [|n IH]; intros candidates model w.
  { cbn. intros [= <- <-]. left. split; [lia|done]. }
  cbn [greedy_selection]. unfold mbind, St_bind, bind, read.
  destruct (config_space_exhausted _).
  { cbn. intros [= <- <-]. cbn. right. split; [lia|by eexists]. }
  destruct (_get_next_candidates self 1 model w) as [[pick|exn] w1] eqn:Hpick;
    [|done].
  apply get_next_candidates_run in Hpick as Hrun.
  destruct Hrun as (_ & Hl & _ & _).
  destruct (get_next_candidates_single _ _ _ _ _ Hpick) as [->|[c ->]].
  { cbn. intros [= <- <-]. cbn. right. split; [lia|]. rewrite Hl. by eexists. }
  destruct n as [|n].
  { cbn. intros [= <- <-]. left. rewrite length_app. cbn. split; [lia|done]. }
  destruct (for_each_add_at_heap_only [c] (exclusion_candidates self) w1)
    as [h ->].
  rewrite for_each_append_run. cbn [transformer set_heap].
  destruct (transformer w1) as [t|]; [|done].
  unfold transformer_get_model. cbn [transformer set_transformer set_heap].
  destruct (transformer_model _ true) as [model' t'].
  intros Hrec. apply IH in Hrec. cbn in Hrec. rewrite Hl in Hrec.
  rewrite length_app in Hrec. cbn in Hrec.
  destruct Hrec as [[Hfull Hlog]|[Hshort Hlog]].
  - left. split; [lia|done].
  - right. split; [lia|done].
Qed.

(** For a request of at least one, [next_candidates] logs its warning
    exactly when it returns fewer than requested, and then once: a full
    batch leaves the log as it was. *)
Theorem next_candidates_warns_exactly_when_short self w cands w' :
  1 ≤ num_requested_candidates self →
  next_candidates self w = (Return cands, w') →
  (len cands = num_requested_candidates self ∧ log w' = log w)
  ∨ (len cands < num_requested_candidates self
     ∧ ∃ size, log w' = log w ++ [WarnAllSelected size (length cands)
                                   (num_requested_candidates self)]).
Proof.
  intros Hnum.
  destruct (greedy_batch_selection self) eqn:Hgreedy.
  - assert (Hgo : next_candidates self w =
                    greedy_selection self
                      (Z.to_nat (num_requested_candidates self)) [] None w
                  → next_candidates self w = (Return cands, w')
                  → (len cands = num_requested_candidates self ∧ log w' = log w)
                    ∨ (len cands < num_requested_candidates self
                       ∧ ∃ size, log w' = log w ++
                           [WarnAllSelected size (length cands)
                              (num_requested_candidates self)])).
    { intros -> [[Hfull Hlog]|[Hshort Hlog]]%greedy_selection_log;
        cbn in *; unfold len; [left|right]; (split; [lia|done]). }
    destruct (transformer w) as [t|] eqn:Ht.
    + apply Hgo. apply next_candidates_greedy; [done|]. rewrite Ht. eauto.
    + destruct (decide (num_requested_candidates self = 1)) as [Hone|Hne].
      * apply Hgo. apply next_candidates_greedy; eauto.
      * by rewrite next_candidates_greedy_assertion.
  - rewrite next_candidates_batch by done.
    unfold batch_selection, mbind, St_bind, bind, read.
    destruct (config_space_exhausted _).
    { cbn. intros [= <- <-]. right. unfold len. cbn. split; [lia|by eexists]. }
    destruct (_get_next_candidates _ _ _ _) as [[inner|exn] w1] eqn:Hinner;
      [|done].
    pose proof (get_next_candidates_length _ _ _ _ _ _ Hnum Hinner) as Hle.
    apply get_next_candidates_run in Hinner as (_ & Hl & _).
    destruct (len inner <? num_requested_candidates self) eqn:Hlen.
    + apply Z.ltb_lt in Hlen. cbn. intros [= <- <-]. right.
      split; [done|]. cbn. rewrite Hl. by eexists.
    + apply Z.ltb_ge in Hlen. cbn. intros [= <- <-]. left.
      split; [lia|done].
Qed.

(** ** Short batches and exhausted spaces *)

(** A selection that ends with fewer than requested has used up every pair
    of its stream. *)
Lemma select_consumed stream e num dd result new :
  len result < num →
  (select stream e num dd result).1.1 = result ++ new →
  len (result ++ new) < num →
  ∀ p, p ∈ stream → used_up dd e new p.
Proof.
  revert e result new. induction stream as [|p0 rest IH];
    intros e result new Hlt Hnew Hshort p Hp; [by apply elem_of_nil in Hp|].
  cbn [select] in Hnew.
  destruct (accept dd e p0) as [c|] eqn:Hacc.
  - destruct (len (result ++ [c]) =? num) eqn:Hlen.
    { apply Z.eqb_eq in Hlen. cbn in Hnew. rewrite <- Hnew in Hshort. lia. }
    apply Z.eqb_neq in Hlen.
    destruct (select_extends rest (add e c) num dd (result ++ [c]))
      as (new' & Hnew' & _).
    assert (new = c :: new') as ->.
    { rewrite Hnew', <- app_assoc in Hnew. by apply app_inv_head in Hnew. }
    assert (Hlt' : len (result ++ [c]) < num).
    { unfold len in *. rewrite length_app in *. cbn in *. lia. }
    assert (Hshort' : len ((result ++ [c]) ++ new') < num)
      by by rewrite <- app_assoc.
    apply elem_of_cons in Hp as [->|Hp].
    + unfold accept in Hacc.
      destruct (dd_contains dd e p0.2) eqn:Hopt.
      * destruct (dd_contains dd e p0.1); [done|]. injection Hacc as <-.
        right. exists e. split_and!; [done|done|set_solver|done|].
        left. by left.
      * injection Hacc as <-. left. by left.
    + destruct (IH _ _ _ Hlt' Hnew' Hshort' p Hp)
        as [Hsel|(updated & Hhp & Hlo & Hhi & Hopt & Horig)].
      * left. by right.
      * right. exists updated. rewrite add_excl_set in Hlo, Hhi.
        split_and!; [done|set_solver|set_solver|done|].
        destruct Horig as [Hsel|Hdup]; [left; by right|by right].
  - destruct (len result =? num) eqn:Hlen; [apply Z.eqb_eq in Hlen; lia|].
    apply elem_of_cons in Hp as [->|Hp].
    + unfold accept in Hacc.
      destruct (dd_contains dd e p0.2) eqn:Hopt; [|done].
      destruct (dd_contains dd e p0.1) eqn:Horig; [|done].
      right. exists e. split_and!; [done|done|set_solver|done|by right].
    + exact (IH _ _ _ Hlt Hnew Hshort p Hp).
Qed.

(** What an inner selection returns is selected from the stream of the
    scored candidates, on one newly allocated working copy. *)
Lemma get_next_candidates_return self n model w cands w' :
  _get_next_candidates self n model w = (Return cands, w') →
  cands = (select (optimized_stream self model w)
             (deref (heap w) (exclusion_candidates self)) n
             (duplicate_detector self) []).1.1
  ∧ ∃ updated, heap w' = heap w ++ [updated].
Proof.
  rewrite get_next_candidates_eq.
  assert (Hpick : ∀ w1, heap w1 = heap w →
    _pick_from_locally_optimized (optimized_stream self model w)
      (exclusion_candidates self) n (duplicate_detector self) w1
      = (Return cands, w') →
    cands = (select (optimized_stream self model w)
               (deref (heap w) (exclusion_candidates self)) n
               (duplicate_detector self) []).1.1
    ∧ ∃ updated, heap w' = heap w ++ [updated]).
  { intros w1 Hh. rewrite pick_from_locally_optimized_run, Hh.
    intros [= <- <-]. split; [done|]. by eexists. }
  destruct (debug_log w) as [d|].
  - destruct (debug_log_calls self model w d) as [[[]|exn] d']; [|done].
    by apply Hpick.
  - by apply Hpick.
Qed.

(** An inner selection that returns fewer than it was asked for has used up
    every candidate that was scored. *)
Lemma get_next_candidates_short self n model w cands w' c0 :
  1 ≤ n →
  _get_next_candidates self n model w = (Return cands, w') →
  len cands < n →
  c0 ∈ ordered_candidates self model w →
  used_up (duplicate_detector self)
    (deref (heap w) (exclusion_candidates self)) cands
    (c0, optimize (local_optimizer self) c0 model).
Proof.
  intros Hn [Hcands _]%get_next_candidates_return Hshort Hc0.
  apply (select_consumed (optimized_stream self model w) _ n _ [] cands);
    [unfold len; cbn; lia|done|done|].
  unfold optimized_stream, _lazily_locally_optimize.
  assert (Hin : c0 ∈ (lazily_from
                        (empty_list
                           (hp_ranges
                              (deref (heap w) (exclusion_candidates self))))
                        (ordered_candidates self model w)
                        (local_optimizer self) model).*1).
  { apply lazily_from_originals. split; [done|]. cbn. set_solver. }
  apply list_elem_of_fmap in Hin as ([c0' c1] & -> & Hin).
  pose proof (proj1 (Forall_forall _ _)
                (lazily_from_optimized _ _ _ _) _ Hin) as Hopt.
  cbn in Hopt. subst c1. done.
Qed.

(** A greedy selection that ends short has found the space exhausted, or
    its last pick came back empty; the exclusion list is then as that pick
    found it. *)
Lemma greedy_selection_short self n candidates model w cands w' :
  is_Some (heap w !! exclusion_candidates self) →
  greedy_selection self n candidates model w = (Return cands, w') →
  (length cands < length candidates + n)%nat →
  config_space_exhausted (deref (heap w') (exclusion_candidates self)) = true
  ∨ ∃ w0 model0 w1,
      _get_next_candidates self 1 model0 w0 = (Return [], w1)
      ∧ w' = set_log (log w') w1
      ∧ deref (heap w0) (exclusion_candidates self)
        = deref (heap w') (exclusion_candidates self).
Proof.
  revert candidates model w.
  induction n as [|n IH]; intros candidates model w Hvalid.
  { cbn. intros [= <- <-]. lia. }
  cbn [greedy_selection]. unfold mbind, St_bind, bind, read.
  destruct (config_space_exhausted
              (deref (heap w) (exclusion_candidates self))) eqn:Hexhausted.
  { cbn. intros [= <- <-] _. by left. }
  destruct (_get_next_candidates self 1 model w) as [[pick|exn] w1] eqn:Hpick;
    [|done].
  destruct (get_next_candidates_frame _ _ _ _ _ _ _ Hvalid Hpick)
    as (Hheap & _ & _).
  pose proof (deref_eq _ _ _ Hheap) as Hderef.
  destruct (get_next_candidates_single _ _ _ _ _ Hpick) as [->|[c ->]].
  { cbn. intros [= <- <-] _. right. exists w, model, w1.
    split_and!; [done|done|]. cbn. by rewrite Hderef. }
  destruct n as [|n].
  { cbn. intros [= <- <-]. rewrite length_app. cbn. lia. }
  assert (Hvalid1 : is_Some (heap w1 !! exclusion_candidates self))
    by by rewrite Hheap.
  rewrite (for_each_add_at_run _ _ _ Hvalid1).
  rewrite for_each_append_run. cbn [transformer set_heap].
  destruct (transformer w1) as [t|]; [|done].
  unfold transformer_get_model. cbn [transformer set_transformer set_heap].
  destruct (transformer_model _ true) as [model' t'].
  intros Hrec Hshort. eapply IH; [|exact Hrec|].
  - cbn. apply lookup_lt_is_Some. rewrite length_insert.
    by apply lookup_lt_is_Some.
  - rewrite length_app. cbn. lia.
Qed.


(** Without a debug log a greedy selection returns. *)
Lemma greedy_selection_returns self n candidates model w :
  is_Some (transformer w) ∨ (n ≤ 1)%nat →
  debug_log w = None →
  ∃ cands w', greedy_selection self n candidates model w = (Return cands, w').
Proof.
  intros Hsafe Hd.
  destruct (greedy_selection self n candidates model w) as [[cands|exn] w']
    eqn:Hrun; [by eauto|].
  apply greedy_selection_raise in Hrun as [[d Hsome] _]; [|done]. congruence.
Qed.


End SelectionProperties.

(** ** [_order_candidates] sorts by score, stably *)

Section OrderCandidates.

Context {Configuration SurrogateModel Score : Type} `{!ScoreLt Score}.

Hypothesis score_lt_asym :
  ∀ a b : Score, score_lt a b = true → score_lt b a = false.
Hypothesis score_lt_negtrans :
  ∀ a b c : Score,
    score_lt a c = true → score_lt a b = true ∨ score_lt b c = true.

(** When scores are strictly weakly ordered by [<] and there is one score
    for each candidate, the candidates come back all and only, in ascending
    order of score, and candidates whose scores are tied keep the order in
    which they were generated. *)
Theorem order_candidates_sorted_and_stable
    (candidates : list Configuration)
    (scoring_function : @ScoringFunction Configuration SurrogateModel Score)
    (model : option SurrogateModel) :
  length (score scoring_function candidates model) = length candidates →
  _order_candidates candidates scoring_function model ≡ₚ candidates
  ∧ (_order_candidates_with_scores candidates scoring_function model).*2
      = _order_candidates candidates scoring_function model
  ∧ StronglySorted not_after
      (_order_candidates_with_scores candidates scoring_function model)
  ∧ ∀ k,
      filter (λ y, tied k y.1 = true)
        (_order_candidates_with_scores candidates scoring_function model)
      = filter (λ y, tied k y.1 = true)
          (zip (score scoring_function candidates model) candidates).
Proof.
  intros Hlen. split_and!.
  - by apply order_candidates_perm.
  - done.
  - unfold _order_candidates_with_scores.
    destruct candidates; [constructor|]. by apply sorted_by_key_sorted.
  - intros k. unfold _order_candidates_with_scores.
    destruct candidates as [|c candidates].
    + by rewrite zip_with_nil_r.
    + by apply sorted_by_key_stable.
Qed.

End OrderCandidates.

(** * The checkpoint example *)

Section CheckpointProperties.

Context {F : Type} `{!FloatArith F}.

Local Abbreviation World := (@TrainingWorld F).
Local Abbreviation Args := (@TrainingArgs F).

Implicit Types (w : World) (args : Args) (v : PyNumber F) (d : string).
Implicit Types (m : option F) (s : F).

(** The loop looks at the multiplier, the sleep time and the checkpoint
    directory only. *)
Lemma training_loop_args epochs v args args' w :
  multiplier args = multiplier args' →
  sleep_time args = sleep_time args' →
  smt_checkpoint_dir args = smt_checkpoint_dir args' →
  training_loop epochs v args w = training_loop epochs v args' w.
Proof.
  intros Hm Hs Hd. revert v w.
  induction epochs as [|epoch epochs IH]; intros v w; [done|].
  cbn [training_loop]. unfold args_multiplier. rewrite Hm, Hs, Hd.
  destruct (time_sleep (sleep_time args')); [done|]. apply IH.
Qed.

(** With a sleep time that [time.sleep] takes, the loop runs to its end. *)
Lemma training_loop_sleeps epochs v args w :
  time_sleep (sleep_time args) = None →
  (training_loop epochs v args w).1 = None.
Proof.
  intros Hs. revert v w. induction epochs as [|epoch epochs IH]; intros v w;
    [done|].
  cbn [training_loop]. rewrite Hs. apply IH.
Qed.

Lemma training_loop_app epochs1 epochs2 v args w :
  time_sleep (sleep_time args) = None →
  training_loop (epochs1 ++ epochs2) v args w =
    training_loop epochs2
      (Nat.iter (length epochs1) (next_value (args_multiplier args)) v) args
      (training_loop epochs1 v args w).2.
Proof.
  intros Hs. revert v w.
  induction epochs1 as [|epoch epochs1 IH]; intros v w; [done|].
  cbn [app training_loop length]. rewrite Hs, IH.
  by rewrite Nat.iter_succ_r.
Qed.

Lemma training_loop_reported (n : nat) start v args w :
  time_sleep (sleep_time args) = None →
  reported (training_loop (seqZ start (Z.of_nat n)) v args w).2 =
    reported w
    ++ ((λ k : nat, (Nat.iter (S k) (next_value (args_multiplier args)) v,
                     start + Z.of_nat k)) <$> seq 0 n).
Proof.
  intros Hs. revert start v w. induction n as [|n IH]; intros start v w.
  - cbn. by rewrite app_nil_r.
  - rewrite seqZ_cons by lia.
    replace (Z.pred (Z.of_nat (S n))) with (Z.of_nat n) by lia.
    cbn [training_loop]. rewrite Hs, IH.
    assert (Hrep : ∀ w0 : World,
      reported (match smt_checkpoint_dir args with
                | Some checkpoint_dir =>
                  save_checkpoint checkpoint_dir start
                    (next_value (args_multiplier args) v) w0
                | None => w0
                end) = reported w0).
    { intros w0. by destruct (smt_checkpoint_dir args). }
    rewrite Hrep. cbn [report reported seq fmap list_fmap].
    rewrite <- app_assoc. cbn [app]. rewrite Z.add_0_r.
    do 2 f_equal. rewrite <- fmap_S_seq, <- list_fmap_compose.
    apply list_fmap_ext. intros i k _. unfold compose.
    rewrite (Nat.iter_succ_r (S k)). f_equal. lia.
Qed.

Lemma training_loop_without_directory epochs v args w :
  smt_checkpoint_dir args = None →
  checkpoint_files (training_loop epochs v args w).2 = checkpoint_files w.
Proof.
  intros Hd. revert v w. induction epochs as [|epoch epochs IH]; intros v w;
    [done|].
  cbn [training_loop]. rewrite Hd.
  destruct (time_sleep (sleep_time args)); [done|]. by rewrite IH.
Qed.

Lemma training_loop_checkpoint epochs last v args d w :
  time_sleep (sleep_time args) = None →
  smt_checkpoint_dir args = Some d →
  checkpoint_files (training_loop (epochs ++ [last]) v args w).2 =
    <[d := {[ "last_epoch"%string := PyInt last;
              "last_value"%string :=
                Nat.iter (S (length epochs))
                  (next_value (args_multiplier args)) v ]}]>
      (checkpoint_files w).
Proof.
  intros Hs Hd. revert v w. induction epochs as [|epoch epochs IH]; intros v w.
  - cbn. by rewrite Hs, Hd.
  - cbn [app training_loop length]. rewrite Hs, IH, Hd.
    cbn [save_checkpoint report checkpoint_files].
    rewrite insert_insert_eq. by rewrite <- Nat.iter_succ_r.
Qed.

Lemma seqZ_snoc start (n : nat) :
  seqZ start (Z.of_nat (S n)) = seqZ start (Z.of_nat n) ++ [start + Z.of_nat n].
Proof.
  replace (Z.of_nat (S n)) with (Z.of_nat n + 1) by lia.
  by rewrite seqZ_app by lia.
Qed.

(** A run that finds no checkpoint is the loop from epoch [0]. *)
Lemma training_script_run args w :
  (∀ d, smt_checkpoint_dir args = Some d → checkpoint_files w !! d = None) →
  training_script args w =
    training_loop (seqZ 0 (Z.of_nat (Z.to_nat (num_epochs args))))
      (PyInt 0) args w.
Proof.
  intros Hfresh. unfold training_script.
  assert (Hseq : seqZ 0 (num_epochs args - 0)
                 = seqZ 0 (Z.of_nat (Z.to_nat (num_epochs args)))).
  { unfold seqZ. by rewrite Z.sub_0_r, Nat2Z.id. }
  rewrite Hseq. destruct (smt_checkpoint_dir args) as [d|]; [|done].
  by rewrite (Hfresh d eq_refl).
Qed.

(** A run from scratch (no checkpoint directory, or none yet at the
    directory given).  With a sleep time that [time.sleep] takes, it fails
    on nothing, reports for the epochs [0] to [num_epochs - 1] the values
    obtained from [0] by one step per epoch, and leaves the checkpoint of
    the last epoch.  With a sleep time that [time.sleep] refuses (a
    negative one), it ends with that error after its first epoch, which it
    has reported and saved.  With no epoch to run it does nothing, and
    without a directory it leaves the files alone. *)
Theorem training_script_from_scratch args w :
  (∀ d, smt_checkpoint_dir args = Some d → checkpoint_files w !! d = None) →
  (time_sleep (sleep_time args) = None →
     (training_script args w).1 = None
     ∧ reported (training_script args w).2 =
         reported w
         ++ ((λ k : nat,
                (value_after (args_multiplier args) (S k), Z.of_nat k))
               <$> seq 0 (Z.to_nat (num_epochs args)))
     ∧ (∀ d, smt_checkpoint_dir args = Some d → 1 ≤ num_epochs args →
        checkpoint_files (training_script args w).2 !! d =
          Some {[ "last_epoch"%string := PyInt (num_epochs args - 1);
                  "last_value"%string :=
                    value_after (args_multiplier args)
                      (Z.to_nat (num_epochs args)) ]}))
  ∧ (∀ e, time_sleep (sleep_time args) = Some e → 1 ≤ num_epochs args →
       (training_script args w).1 = Some (CheckpointSleepError e)
       ∧ reported (training_script args w).2 =
           reported w ++ [(value_after (args_multiplier args) 1, 0)]
       ∧ (∀ d, smt_checkpoint_dir args = Some d →
          checkpoint_files (training_script args w).2 !! d =
            Some {[ "last_epoch"%string := PyInt 0;
                    "last_value"%string :=
                      value_after (args_multiplier args) 1 ]}))
  ∧ (num_epochs args ≤ 0 → training_script args w = (None, w))
  ∧ (smt_checkpoint_dir args = None →
     checkpoint_files (training_script args w).2 = checkpoint_files w).
Proof.
  intros Hfresh. rewrite training_script_run by done. split_and!.
  - intros Hs. split_and!.
    + by apply training_loop_sleeps.
    + by rewrite training_loop_reported.
    + intros d Hd Hn.
      destruct (Z.to_nat (num_epochs args)) as [|n] eqn:Hnat; [lia|].
      rewrite seqZ_snoc, (training_loop_checkpoint _ _ _ _ d) by done.
      rewrite lookup_insert_eq, length_seqZ, Nat2Z.id.
      replace (0 + Z.of_nat n) with (num_epochs args - 1) by lia. done.
  - intros e Hs Hn.
    destruct (Z.to_nat (num_epochs args)) as [|n] eqn:Hnat; [lia|].
    rewrite seqZ_cons by lia. cbn [training_loop]. rewrite Hs. cbn [fst snd].
    split_and!; [done| |].
    + by destruct (smt_checkpoint_dir args).
    + intros d ->. cbn. by rewrite lookup_insert_eq.
  - intros Hn. by replace (Z.to_nat (num_epochs args)) with 0%nat by lia.
  - apply training_loop_without_directory.
Qed.

Lemma training_script_fresh n m s d w :
  checkpoint_files w !! d = None →
  training_script
    {| num_epochs := n; multiplier := m; sleep_time := s;
       smt_checkpoint_dir := Some d |} w
  = training_loop (seqZ 0 n) (PyInt 0)
      {| num_epochs := n; multiplier := m; sleep_time := s;
         smt_checkpoint_dir := Some d |} w.
Proof.
  intros Hfresh. unfold training_script. cbn [smt_checkpoint_dir num_epochs].
  by rewrite Hfresh, Z.sub_0_r.
Qed.

(** Stopping and resuming changes nothing: with a sleep time that
    [time.sleep] takes and a checkpoint directory that holds no checkpoint
    yet, a run to [n1] epochs followed by a run to [n2] epochs leaves the
    reports and the files of a single run to the larger of the two, and
    none of the runs fails. *)
Theorem training_script_resumes n1 n2 m s d w :
  time_sleep s = None →
  checkpoint_files w !! d = None →
  (training_script
     {| num_epochs := n1; multiplier := m; sleep_time := s;
        smt_checkpoint_dir := Some d |} w).1 = None
  ∧ training_script
      {| num_epochs := n2; multiplier := m; sleep_time := s;
         smt_checkpoint_dir := Some d |}
      (training_script
         {| num_epochs := n1; multiplier := m; sleep_time := s;
            smt_checkpoint_dir := Some d |} w).2
    = training_script
        {| num_epochs := Z.max n1 n2; multiplier := m; sleep_time := s;
           smt_checkpoint_dir := Some d |} w.
Proof.
  intros Hs Hfresh.
  rewrite (training_script_fresh n1), (training_script_fresh (Z.max n1 n2))
    by done.
  set (args1 := {| num_epochs := n1; multiplier := m; sleep_time := s;
                   smt_checkpoint_dir := Some d |}).
  set (args2 := {| num_epochs := n2; multiplier := m; sleep_time := s;
                   smt_checkpoint_dir := Some d |}).
  set (args := {| num_epochs := Z.max n1 n2; multiplier := m; sleep_time := s;
                  smt_checkpoint_dir := Some d |}).
  split; [by apply training_loop_sleeps|].
  destruct (Z.le_gt_cases n1 0) as [Hn1|Hn1].
  - (* the first run has no epoch to run and writes no checkpoint *)
    assert (seqZ 0 n1 = []) as -> by (unfold seqZ; by replace (Z.to_nat n1) with 0%nat by lia).
    cbn [training_loop snd]. unfold args2 at 1.
    rewrite training_script_fresh by done. fold args2.
    destruct (Z.le_gt_cases n2 0) as [Hn2|Hn2].
    + assert (seqZ 0 n2 = []) as -> by (unfold seqZ; by replace (Z.to_nat n2) with 0%nat by lia).
      assert (seqZ 0 (Z.max n1 n2) = []) as ->; [|done].
      unfold seqZ. by replace (Z.to_nat (Z.max n1 n2)) with 0%nat by lia.
    + replace (Z.max n1 n2) with n2 by lia.
      by apply training_loop_args.
  - (* the first run leaves the checkpoint of epoch [n1 - 1] *)
    set (w1 := (training_loop (seqZ 0 n1) (PyInt 0) args1 w).2).
    assert (Hfile : checkpoint_files w1 !! d =
              Some {[ "last_epoch"%string := PyInt (n1 - 1);
                      "last_value"%string :=
                        Nat.iter (Z.to_nat n1)
                          (next_value (args_multiplier args1)) (PyInt 0) ]}).
    { unfold w1. rewrite <- (Z2Nat.id n1) at 1 by lia.
      destruct (Z.to_nat n1) as [|k] eqn:Hk; [lia|].
      rewrite seqZ_snoc, (training_loop_checkpoint _ _ _ _ d) by done.
      rewrite lookup_insert_eq, length_seqZ, Nat2Z.id.
      replace (0 + Z.of_nat k) with (n1 - 1) by lia. done. }
    unfold training_script at 1. cbn [smt_checkpoint_dir num_epochs args2].
    rewrite Hfile. rewrite lookup_insert_eq.
    rewrite lookup_insert_ne by done. rewrite lookup_singleton_eq.
    cbn [py_add]. replace (n1 - 1 + 1) with n1 by lia.
    destruct (Z.le_gt_cases n2 n1) as [Hn2|Hn2].
    + assert (seqZ n1 (n2 - n1) = []) as ->
        by (unfold seqZ; by replace (Z.to_nat (n2 - n1)) with 0%nat by lia).
      cbn [training_loop]. replace (Z.max n1 n2) with n1 by lia.
      unfold w1.
      rewrite (training_loop_args (seqZ 0 n1) _ args args1) by done.
      destruct (training_loop (seqZ 0 n1) (PyInt 0) args1 w) as [o w2] eqn:Hrun.
      pose proof (training_loop_sleeps (seqZ 0 n1) (PyInt 0) args1 w Hs)
        as Hnone.
      rewrite Hrun in Hnone. cbn in Hnone. by subst o.
    + replace (Z.max n1 n2) with (n1 + (n2 - n1)) by lia.
      rewrite seqZ_app by lia. rewrite training_loop_app by done.
      rewrite length_seqZ. rewrite Z.add_0_l.
      rewrite (training_loop_args (seqZ 0 n1) _ args args1) by done.
      by apply training_loop_args.
Qed.

End CheckpointProperties.

(** * Listing experiments *)

Section ExperimentsProperties.

Context {DataFrame Tuner Metadata Time : Type}.
Context `{!ScoreLt Time} `{!MetadataAccess Metadata Time}.

Hypothesis time_lt_asym :
  ∀ a b : Time, score_lt a b = true → score_lt b a = false.
Hypothesis time_lt_negtrans :
  ∀ a b c : Time,
    score_lt a c = true → score_lt a b = true ∨ score_lt b c = true.

Local Abbreviation Experiment := (@ExperimentResult DataFrame Tuner Metadata).

Lemma strongly_sorted_reverse {A} (R : relation A) (l : list A) :
  StronglySorted R l → StronglySorted (flip R) (reverse l).
Proof.
  induction 1 as [|x l Hl IH Hx]; [constructor|].
  rewrite reverse_cons. apply StronglySorted_app. split_and!.
  - intros y1 y2 Hy1 Hy2%list_elem_of_singleton. subst y2.
    rewrite elem_of_reverse in Hy1.
    unfold flip. rewrite Forall_forall in Hx. by apply Hx.
  - done.
  - repeat constructor.
Qed.

Lemma strongly_sorted_keyed {A} (key : A → Time) (l : list (Time * A)) :
  Forall (λ p, p.1 = key p.2) l →
  StronglySorted (flip not_after) l →
  StronglySorted (λ a b, score_lt (key a) (key b) = false) l.*2.
Proof.
  intros Hkey. induction 1 as [|p l Hl IH Hp]; [constructor|].
  apply Forall_cons in Hkey as [Hpk Hkey]. cbn. constructor; [by apply IH|].
  rewrite Forall_fmap. rewrite Forall_forall in *.
  intros q Hq. cbn. specialize (Hp q Hq). unfold flip, not_after in Hp.
  by rewrite <- Hpk, <- (Hkey q Hq).
Qed.

Lemma filter_keyed {A} (key : A → Time) k (l : list (Time * A)) :
  Forall (λ p, p.1 = key p.2) l →
  filter (λ x, tied k (key x) = true) l.*2
  = (filter (λ p, tied k p.1 = true) l).*2.
Proof.
  induction 1 as [|p l Hp Hl IH]; [done|].
  rewrite fmap_cons, !filter_cons, IH, <- Hp.
  by destruct (decide (tied k p.1 = true)).
Qed.

Lemma filter_decorate {A} (key : A → Time) k (l : list A) :
  (filter (λ p, tied k p.1 = true) ((λ x, (key x, x)) <$> l)).*2
  = filter (λ x, tied k (key x) = true) l.
Proof.
  induction l as [|x l IH]; [done|].
  rewrite fmap_cons, !filter_cons. cbn [fst].
  destruct (decide (tied k (key x) = true)); [rewrite fmap_cons|];
    by rewrite IH.
Qed.

Section SortedReverse.

Context {A : Type} (key : A → Time).

Lemma sorted_reverse_perm (l : list A) : sorted_reverse key l ≡ₚ l.
Proof.
  unfold sorted_reverse.
  rewrite reverse_Permutation, sorted_by_key_perm, reverse_Permutation.
  rewrite <- list_fmap_compose. by rewrite list_fmap_id.
Qed.

Lemma sorted_reverse_keys (l : list A) :
  Forall (λ p, p.1 = key p.2)
    (reverse (sorted_by_key (reverse ((λ x, (key x, x)) <$> l)))).
Proof.
  rewrite reverse_Permutation, sorted_by_key_perm, reverse_Permutation.
  rewrite Forall_fmap. by apply Forall_true.
Qed.

Lemma sorted_reverse_descending (l : list A) :
  StronglySorted (λ a b, score_lt (key a) (key b) = false)
    (sorted_reverse key l).
Proof.
  unfold sorted_reverse. apply strongly_sorted_keyed.
  - apply sorted_reverse_keys.
  - apply strongly_sorted_reverse. by apply sorted_by_key_sorted.
Qed.

Lemma sorted_reverse_stable (l : list A) k :
  filter (λ x, tied k (key x) = true) (sorted_reverse key l)
  = filter (λ x, tied k (key x) = true) l.
Proof.
  unfold sorted_reverse.
  rewrite filter_keyed by apply sorted_reverse_keys.
  rewrite filter_reverse. rewrite sorted_by_key_stable by done.
  rewrite filter_reverse, reverse_involutive.
  apply filter_decorate.
Qed.

End SortedReverse.

(** [list_experiments] returns the loaded experiments that pass the filter
    and have results, tuner and metadata, each as often as it was loaded,
    newest first; experiments whose creation times are tied come in the
    order in which they were found. *)
Theorem list_experiments_complete_newest_first
    (experiment_filter : option (Experiment → bool))
    (loaded : list Experiment) :
  list_experiments experiment_filter loaded
    ≡ₚ filter (λ exp, passes experiment_filter exp && is_complete exp = true)
         loaded
  ∧ (∀ exp, exp ∈ list_experiments experiment_filter loaded →
       exp ∈ loaded ∧ passes experiment_filter exp = true
       ∧ is_Some (results exp) ∧ is_Some (tuner exp) ∧ is_Some (metadata exp))
  ∧ StronglySorted
      (λ a b, score_lt (creation_key a) (creation_key b) = false)
      (list_experiments experiment_filter loaded)
  ∧ ∀ k,
      filter (λ exp, tied k (creation_key exp) = true)
        (list_experiments experiment_filter loaded)
      = filter (λ exp, tied k (creation_key exp) = true)
          (filter (λ exp, passes experiment_filter exp && is_complete exp = true)
             loaded).
Proof.
  unfold list_experiments. split_and!.
  - apply sorted_reverse_perm.
  - intros exp. rewrite sorted_reverse_perm.
    intros [Hkeep Hin]%list_elem_of_filter. split; [done|].
    apply andb_true_iff in Hkeep as [Hpass Hcomplete].
    unfold is_complete in Hcomplete.
    apply andb_true_iff in Hcomplete as [Hcomplete Hm].
    apply andb_true_iff in Hcomplete as [Hr Ht].
    apply bool_decide_eq_true in Hr, Ht, Hm. done.
  - apply sorted_reverse_descending.
  - intros k. apply sorted_reverse_stable.
Qed.

End ExperimentsProperties.

(** * Parameters of the marginal likelihood *)

Section LikelihoodProperties.

Context {K Mn I P V : Type}.
Context `{!ParameterBlock K V} `{!ParameterBlock Mn V} `{!ParameterBlock I V}.
Context `{!NoiseEncoding P V}.

Local Abbreviation Likelihood := (@MarginalLikelihood K Mn I P).

Lemma startswith_app (pref k : string) : startswith pref (pref +:+ k) = true.
Proof.
  unfold startswith. induction pref as [|a pref IH].
  - by destruct k.
  - change (String a pref +:+ k)%string with (String a (pref +:+ k)).
    change (String.prefix (String a pref) (String a (pref +:+ k)))
      with (if Ascii.ascii_dec a a then String.prefix pref (pref +:+ k)
            else false).
    destruct (Ascii.ascii_dec a a); [done|congruence].
Qed.

Lemma string_app_cons a (pref k : string) :
  (String a pref +:+ k)%string = String a (pref +:+ k).
Proof. done. Qed.

Lemma string_drop_app (pref k : string) :
  string_drop (String.length pref) (pref +:+ k) = k.
Proof.
  induction pref as [|a pref IH]; [done|].
  by rewrite string_app_cons.
Qed.

Lemma startswith_split (pref k : string) :
  startswith pref k = true →
  k = (pref +:+ string_drop (String.length pref) k)%string.
Proof.
  unfold startswith. revert k. induction pref as [|a pref IH]; intros k.
  - done.
  - destruct k as [|b k]; [done|].
    rewrite string_app_cons. cbn [String.prefix String.length string_drop].
    destruct (Ascii.ascii_dec a b) as [->|]; [|done].
    intros Hk. f_equal. by apply IH.
Qed.

Lemma stripped_items_NoDup pref (items : list (string * V)) :
  NoDup items.*1 →
  NoDup (omap (λ kv : string * V,
                 if startswith pref kv.1
                 then Some (string_drop (String.length pref) kv.1, kv.2)
                 else None) items).*1.
Proof.
  induction items as [|[k v] items IH]; intros Hnd; [constructor|].
  cbn in Hnd. apply NoDup_cons in Hnd as [Hk Hnd].
  cbn [omap list_omap fst snd].
  destruct (startswith pref k) eqn:Hpref; [|by apply IH].
  rewrite fmap_cons. cbn [fst]. constructor; [|by apply IH].
  intros [[k0 v0] [Hk0 Hin]]%list_elem_of_fmap. cbn [fst] in Hk0.
  apply list_elem_of_omap in Hin as ([k1 v1] & Hin & Hsome).
  cbn [fst snd] in Hsome.
  destruct (startswith pref k1) eqn:Hpref1; [|done].
  injection Hsome as <- <-.
  apply Hk. apply list_elem_of_fmap. exists (k1, v1). split; [|done]. cbn.
  rewrite (startswith_split pref k Hpref), (startswith_split pref k1 Hpref1).
  by rewrite Hk0.
Qed.

(** Cutting the prefix off: the entry at [k] is the entry the dictionary
    has at [pref + k]. *)
Lemma lookup_stripped_dict pref (param_dict : gmap string V) k :
  stripped_dict pref param_dict !! k = param_dict !! (pref +:+ k)%string.
Proof.
  unfold stripped_dict. apply option_eq. intros v.
  rewrite <- elem_of_list_to_map
    by apply stripped_items_NoDup, NoDup_fst_map_to_list.
  rewrite list_elem_of_omap. split.
  - intros ([k1 v1] & Hin & Hsome). cbn [fst snd] in Hsome.
    destruct (startswith pref k1) eqn:Hpref; [|done].
    injection Hsome as <- <-. apply elem_of_map_to_list in Hin.
    by rewrite <- (startswith_split pref k1 Hpref).
  - intros Hin. exists ((pref +:+ k)%string, v). split.
    + by apply elem_of_map_to_list.
    + cbn [fst snd]. by rewrite startswith_app, string_drop_app.
Qed.

Lemma lookup_with_prefix pref (params : gmap string V) k :
  with_prefix pref params !! (pref +:+ k)%string = params !! k.
Proof. unfold with_prefix. apply (lookup_kmap (String.append pref)). Qed.

Lemma lookup_with_other_prefix pref (params : gmap string V) k :
  (∀ k', (pref +:+ k')%string ≠ k) → with_prefix pref params !! k = None.
Proof.
  intros Hother. unfold with_prefix. apply lookup_kmap_None; [apply _|].
  intros k' Hk'. by destruct (Hother k').
Qed.

Lemma lookup_union_fresh (d result : gmap string V) k :
  d !! k = None → dict_update result d !! k = result !! k.
Proof. intros Hk. unfold dict_update. by apply lookup_union_r. Qed.

Lemma lookup_union_new (d result : gmap string V) k :
  result !! k = None → dict_update result d !! k = d !! k.
Proof.
  intros Hk. unfold dict_update. rewrite lookup_union, Hk.
  by destruct (d !! k).
Qed.

Lemma stripped_get_params (self : Likelihood) :
  stripped_dict "kernel_" (likelihood_get_params self) = get_params (kernel self)
  ∧ stripped_dict "mean_" (likelihood_get_params self) = get_params (mean self)
  ∧ stripped_dict "issm_" (likelihood_get_params self)
      = get_params (iss_model self)
  ∧ likelihood_get_params self !! "noise_variance"%string
      = Some (get_noise_variance (noise_variance_internal self)).
Proof.
  unfold likelihood_get_params. split_and!.
  - apply map_eq. intros k. rewrite lookup_stripped_dict.
    rewrite lookup_union_fresh
      by (apply lookup_with_other_prefix; intros k'; discriminate).
    rewrite lookup_union_fresh
      by (apply lookup_with_other_prefix; intros k'; discriminate).
    rewrite lookup_union_new by (by apply lookup_singleton_ne).
    apply lookup_with_prefix.
  - apply map_eq. intros k. rewrite lookup_stripped_dict.
    rewrite lookup_union_fresh
      by (apply lookup_with_other_prefix; intros k'; discriminate).
    rewrite lookup_union_new.
    + apply lookup_with_prefix.
    + rewrite lookup_union_fresh
        by (apply lookup_with_other_prefix; intros k'; discriminate).
      by apply lookup_singleton_ne.
  - apply map_eq. intros k. rewrite lookup_stripped_dict.
    rewrite lookup_union_new.
    + apply lookup_with_prefix.
    + rewrite lookup_union_fresh
        by (apply lookup_with_other_prefix; intros k'; discriminate).
      rewrite lookup_union_fresh
        by (apply lookup_with_other_prefix; intros k'; discriminate).
      by apply lookup_singleton_ne.
  - rewrite !lookup_union_fresh
      by (apply lookup_with_other_prefix; intros k'; discriminate).
    apply lookup_singleton_eq.
Qed.

(** From the dictionary of [get_params], [set_params] cuts out for every
    block exactly the parameters that [get_params] took from it, whatever
    their names: the prefixes tell the blocks apart, and none of them covers
    the noise variance. *)
Theorem likelihood_params_by_prefix (self : Likelihood) :
  stripped_dict "kernel_" (likelihood_get_params self) = get_params (kernel self)
  ∧ stripped_dict "mean_" (likelihood_get_params self) = get_params (mean self)
  ∧ stripped_dict "issm_" (likelihood_get_params self)
      = get_params (iss_model self)
  ∧ likelihood_get_params self !! "noise_variance"%string
      = Some (get_noise_variance (noise_variance_internal self)).
Proof. apply stripped_get_params. Qed.

(** Setting the parameters just read restores the likelihood, as soon as
    this holds for each block and for the encoding of the noise variance. *)
Theorem likelihood_set_params_get_params (self : Likelihood) :
  set_params (get_params (kernel self)) (kernel self) = (Return (), kernel self) →
  set_params (get_params (mean self)) (mean self) = (Return (), mean self) →
  set_params (get_params (iss_model self)) (iss_model self)
    = (Return (), iss_model self) →
  set_noise_variance (get_noise_variance (noise_variance_internal self))
    (noise_variance_internal self)
    = (Return (), noise_variance_internal self) →
  likelihood_set_params (likelihood_get_params self) self = (Return (), self).
Proof.
  intros Hkernel Hmean Hissm Hnoise.
  destruct (stripped_get_params self) as (Hk & Hm & Hi & Hn).
  unfold likelihood_set_params. rewrite Hk, Hm, Hi, Hn.
  unfold mbind, St_bind, bind.
  unfold on_kernel at 1. rewrite Hkernel.
  destruct self as [k mn i p]. cbn [kernel mean iss_model noise_variance_internal] in *.
  unfold on_mean at 1. cbn [kernel mean iss_model noise_variance_internal].
  rewrite Hmean.
  unfold on_iss_model at 1. cbn [kernel mean iss_model noise_variance_internal].
  rewrite Hissm.
  unfold on_noise_variance. cbn [kernel mean iss_model noise_variance_internal].
  by rewrite Hnoise.
Qed.

End LikelihoodProperties.

(** * The theorems at work on the small instance *)

Import Instance.

Lemma identical_is_at_least_identical :
  at_least_identical (@DuplicateDetectorIdentical nat _ _).
Proof. intros e c Hc. exact Hc. Qed.

(** Three greedy picks with [4] and [5] excluded: [1], [0] and [2]. *)
Lemma next_candidates_new_and_distinct_witness :
  (next_candidates (algorithm true 3 3) (world [4; 5]%nat (Some []))).1
    = Return [1; 0; 2]%nat
  ∧ NoDup [1; 0; 2]%nat
  ∧ ∀ c, c ∈ [1; 0; 2]%nat → contains (excluded [4; 5]%nat) c = false.
Proof.
  split; [vm_compute; reflexivity|].
  apply (next_candidates_new_and_distinct (algorithm true 3 3)
           (world [4; 5]%nat (Some [])) [1; 0; 2]%nat
           (next_candidates (algorithm true 3 3) (world [4; 5]%nat (Some []))).2).
  - exact identical_is_at_least_identical.
  - exists (excluded [4; 5]%nat). reflexivity.
  - vm_compute. reflexivity.
Defined.

(** Without detection the optimum comes back as often as it is reached, even
    when it is excluded: "this does not work if duplicate_detector is
    DuplicateDetectorNoDetection". *)
Lemma no_detection_returns_duplicates :
  (next_candidates (algorithm_no_detection 3 3) (world [1]%nat None)).1
    = Return [1; 1; 1]%nat.
Proof. vm_compute. reflexivity. Qed.



(** The exclusion list with [4] in it is the same object with the same
    contents after a selection in one go. *)
Lemma batch_selection_keeps_exclusion_list_witness :
  greedy_batch_selection (algorithm false 3 3) = false
  ∧ is_Some (heap (world [4]%nat None) !! 0%nat)
  ∧ heap (next_candidates (algorithm false 3 3) (world [4]%nat None)).2 !! 0%nat
      = Some (excluded [4]%nat)
  ∧ ∃ allocated,
      heap (next_candidates (algorithm false 3 3) (world [4]%nat None)).2
        = heap (world [4]%nat None) ++ allocated.
Proof.
  split; [reflexivity|].
  split; [by eexists|].
  apply (batch_selection_keeps_exclusion_list (algorithm false 3 3)
           (world [4]%nat None)
           (next_candidates (algorithm false 3 3) (world [4]%nat None)).1
           (next_candidates (algorithm false 3 3) (world [4]%nat None)).2).
  - reflexivity.
  - by eexists.
  - vm_compute. reflexivity.
Defined.


(** With the whole space excluded, a greedy call for two with a state
    transformer returns nothing and warns; nothing else changes. *)
Lemma exhausted_at_call_time :
  next_candidates (algorithm true 3 2) (world whole_space (Some []))
  = (Return [],
     {| heap := [excluded whole_space]; random_state := 0%nat;
        transformer := Some []; debug_log := None;
        log := [WarnAllSelected (Some 10%nat) 0 2] |}).
Proof. vm_compute. reflexivity. Qed.




(** C3: with no candidate requested, the selection loop still consumes the
    stream and accepts from it, where the rule of the specification accepts
    nothing; so does [next_candidates] in one go, while the greedy selection
    of no candidate returns none. *)
Theorem pick_from_locally_optimized_none_requested :
  (_pick_from_locally_optimized [(0, 1); (2, 3)]%nat 0%nat 0
     DuplicateDetectorIdentical (world [] None)).1 = Return [1; 3]%nat
  ∧ (selection_by_rule [(0, 1); (2, 3)]%nat (excluded []) 0
       DuplicateDetectorIdentical []).1
      = ([], [(0, 1); (2, 3)]%nat)
  ∧ batch_zero_run.1 = Return [1; 2]%nat
  ∧ (next_candidates (algorithm true 3 0) (world [] (Some []))).1 = Return [].
Proof. vm_compute. repeat split. Qed.

(** A space with [blurb] only has no field to infer [max_t] from. *)
Lemma hyperband_max_t_inference_witness :
  ∃ msg, hyperband_max_t None config_space6 = Raise (AssertionError msg).
Proof.
  destruct hyperband_max_t_inference as (_ & _ & _ & Hfail).
  apply Hfail. intros name value Hname.
  apply list_elem_of_In in Hname.
  destruct Hname as [<-|[<-|[<-|[]]]]; vm_compute; discriminate.
Defined.


(** * The further properties at work *)

Import Examples.


(** With a debug log and nothing to draw, the inner selection stops on the
    first element of an empty list; with a block open and candidates to
    draw it goes through. *)
Lemma get_next_candidates_with_debug_log :
  (_get_next_candidates (algorithm false 0 1) 1 None
     (world_with_debug_log [] None true)).1 = Raise IndexError
  ∧ (_get_next_candidates (algorithm false 3 3) 3 None
       (world_with_debug_log [] None true)).1 = Return [1; 2]%nat.
Proof. vm_compute. repeat split. Qed.

(** Of the two configurations selected, [2] is a candidate that was drawn
    and [1] the optimum of one. *)
Lemma get_next_candidates_provenance_witness :
  (_get_next_candidates (algorithm false 3 3) 3 None (world [] None)).1
    = Return [1; 2]%nat
  ∧ ∃ c0, c0 ∈ drawn_candidates (algorithm false 3 3) (world [] None)
          ∧ (2%nat = c0
             ∨ 2%nat = optimize (local_optimizer (algorithm false 3 3)) c0 None).
Proof.
  split; [vm_compute; reflexivity|].
  apply (get_next_candidates_provenance (algorithm false 3 3) 3 None
           (world [] None) [1; 2]%nat
           (_get_next_candidates (algorithm false 3 3) 3 None (world [] None)).2).
  - vm_compute. reflexivity.
  - repeat constructor.
Defined.

(** Two requested without detection: the optimum twice, although it is
    excluded. *)
Lemma pick_from_locally_optimized_no_detection_witness :
  1 ≤ 2
  ∧ (_pick_from_locally_optimized stream_to_one 0%nat 2
       DuplicateDetectorNoDetection (world [1]%nat None)).1
    = Return [1; 1]%nat.
Proof.
  split; [lia|].
  apply (pick_from_locally_optimized_no_detection stream_to_one 0%nat 2
           (world [1]%nat None)).
  lia.
Defined.

(** Three pairs with one optimum: the optimum, then the one original it
    does not stand in the way of; two configurations for three pairs. *)
Lemma pick_from_locally_optimized_at_least_half_witness :
  NoDup stream_to_one.*1
  ∧ ∃ cands,
      (_pick_from_locally_optimized stream_to_one 0%nat 3
         DuplicateDetectorIdentical (world [] None)).1 = Return cands
      ∧ (len cands = 3 ∨ (length stream_to_one ≤ 2 * length cands)%nat).
Proof.
  assert (Hnd : NoDup stream_to_one.*1).
  { apply (bool_decide_unpack _). vm_compute. reflexivity. }
  split; [exact Hnd|].
  apply (pick_from_locally_optimized_at_least_half stream_to_one 0%nat 3
           (world [] None) Hnd).
  intros p Hp.
  repeat (apply elem_of_cons in Hp as [->|Hp]; [vm_compute; reflexivity|]).
  by apply elem_of_nil in Hp.
Defined.


(** The other failures: a debug log and an empty draw, and a debug log that
    refuses a call. *)
Lemma next_candidates_with_debug_log :
  (next_candidates (algorithm false 0 1)
     (world_with_debug_log [] None true)).1 = Raise IndexError
  ∧ (next_candidates (algorithm true 3 2)
       (world_with_debug_log [] (Some []) false)).1
    = Raise (AssertionError "no block is open").
Proof. vm_compute. repeat split. Qed.

(** Two of three requested come back, and one warning is logged. *)
Lemma next_candidates_warns_exactly_when_short_witness :
  1 ≤ num_requested_candidates (algorithm false 3 3)
  ∧ batch_run.1 = Return [1; 2]%nat
  ∧ ((len [1; 2]%nat = num_requested_candidates (algorithm false 3 3)
      ∧ log batch_run.2 = log (world [] None))
     ∨ (len [1; 2]%nat < num_requested_candidates (algorithm false 3 3)
        ∧ ∃ size, log batch_run.2
                  = log (world [] None)
                    ++ [WarnAllSelected size (length [1; 2]%nat)
                          (num_requested_candidates (algorithm false 3 3))])).
Proof.
  split; [vm_compute; discriminate|].
  split; [vm_compute; reflexivity|].
  apply (next_candidates_warns_exactly_when_short (algorithm false 3 3)
           (world [] None) [1; 2]%nat batch_run.2).
  - vm_compute. discriminate.
  - vm_compute. reflexivity.
Defined.

(** Four candidates by their distance to [5]: [5] first, then [3] and [7]
    at distance [2], [3] before [7] as they were generated, then [8]. *)
Lemma order_candidates_sorted_and_stable_witness :
  length (score distance_scores [3; 8; 7; 5]%nat None) = length [3; 8; 7; 5]%nat
  ∧ _order_candidates [3; 8; 7; 5]%nat distance_scores None = [5; 3; 7; 8]%nat
  ∧ (_order_candidates [3; 8; 7; 5]%nat distance_scores None
       ≡ₚ [3; 8; 7; 5]%nat
     ∧ (_order_candidates_with_scores [3; 8; 7; 5]%nat distance_scores None).*2
         = _order_candidates [3; 8; 7; 5]%nat distance_scores None
     ∧ StronglySorted not_after
         (_order_candidates_with_scores [3; 8; 7; 5]%nat distance_scores None)
     ∧ ∀ k,
         filter (λ y, tied k y.1 = true)
           (_order_candidates_with_scores [3; 8; 7; 5]%nat distance_scores None)
         = filter (λ y, tied k y.1 = true)
             (zip (score distance_scores [3; 8; 7; 5]%nat None)
                [3; 8; 7; 5]%nat)).
Proof.
  split; [reflexivity|]. split; [vm_compute; reflexivity|].
  apply (order_candidates_sorted_and_stable
           (proj1 Z_ltb_strict_weak) (proj2 Z_ltb_strict_weak)
           [3; 8; 7; 5]%nat distance_scores None).
  reflexivity.
Defined.

(** Three epochs with multiplier [2.0] and no checkpoint yet: [2], [6] and
    [14] are reported, and the checkpoint of epoch [2] is left. *)
Lemma training_script_from_scratch_witness :
  time_sleep (sleep_time (training_args 3 0)) = None
  ∧ (training_script (training_args 3 0) no_files).1 = None
  ∧ reported (training_script (training_args 3 0) no_files).2
    = [(PyFloat 2, 0); (PyFloat 6, 1); (PyFloat 14, 2)]
  ∧ checkpoint_files (training_script (training_args 3 0) no_files).2
      !! "trial_0"%string
    = Some {[ "last_epoch"%string := PyInt 2;
              "last_value"%string := PyFloat 14 ]}.
Proof.
  split; [reflexivity|].
  destruct (training_script_from_scratch (training_args 3 0) no_files)
    as (Hsleeps & _).
  - intros d _. reflexivity.
  - destruct (Hsleeps eq_refl) as (Hnone & Hreported & Hfile).
    split; [exact Hnone|]. split.
    + rewrite Hreported. vm_compute. reflexivity.
    + rewrite (Hfile "trial_0"%string eq_refl); [|vm_compute; discriminate].
      vm_compute. reflexivity.
Defined.

(** With [--sleep-time -1] the script ends with the error of [time.sleep]
    after its first epoch, reported and saved. *)
Lemma training_script_negative_sleep_time :
  training_script (training_args 3 (-1)) no_files
  = (Some (CheckpointSleepError SleepValueError),
     {| checkpoint_files :=
          {[ "trial_0"%string :=
               {[ "last_epoch"%string := PyInt 0;
                  "last_value"%string := PyFloat 2 ]} ]};
        reported := [(PyFloat 2, 0)] |}).
Proof. vm_compute. reflexivity. Qed.

(** Two epochs, then a run to five: the reports and the files of one run
    to five. *)
Lemma training_script_resumes_witness :
  time_sleep 0 = None
  ∧ checkpoint_files no_files !! "trial_0"%string = None
  ∧ (training_script (training_args 2 0) no_files).1 = None
  ∧ training_script (training_args 5 0)
      (training_script (training_args 2 0) no_files).2
    = training_script (training_args (Z.max 2 5) 0) no_files.
Proof.
  split; [reflexivity|]. split; [reflexivity|].
  apply (training_script_resumes 2 5 (Some 2) 0 "trial_0"%string no_files);
    reflexivity.
Defined.

(** Of five experiments, the one without results is left out; the one
    without a creation time comes last, and the two created at [30] stay in
    the order in which they were found. *)
Lemma list_experiments_complete_newest_first_witness :
  name <$> list_experiments None loaded_experiments = ["c"; "e"; "a"; "d"]%string
  ∧ (list_experiments None loaded_experiments
       ≡ₚ filter (λ exp, passes None exp && is_complete exp = true)
            loaded_experiments
     ∧ (∀ exp, exp ∈ list_experiments None loaded_experiments →
          exp ∈ loaded_experiments ∧ passes None exp = true
          ∧ is_Some (results exp) ∧ is_Some (tuner exp)
          ∧ is_Some (metadata exp))
     ∧ StronglySorted
         (λ a b, score_lt (creation_key a) (creation_key b) = false)
         (list_experiments None loaded_experiments)
     ∧ ∀ k,
         filter (λ exp, tied k (creation_key exp) = true)
           (list_experiments None loaded_experiments)
         = filter (λ exp, tied k (creation_key exp) = true)
             (filter (λ exp, passes None exp && is_complete exp = true)
                loaded_experiments)).
Proof.
  split; [vm_compute; reflexivity|].
  apply (list_experiments_complete_newest_first
           (proj1 Z_ltb_strict_weak) (proj2 Z_ltb_strict_weak)
           None loaded_experiments).
Defined.

(** The dictionary of the example likelihood: every parameter under the
    prefix of its block. *)
Lemma likelihood_get_params_example :
  likelihood_get_params likelihood
    = {[ "noise_variance"%string := 1;
         "kernel_lengthscale"%string := 3; "kernel_mean_shift"%string := 4;
         "mean_mean_value"%string := 5;
         "issm_alpha"%string := 6; "issm_kernel_"%string := 7 ]}.
Proof.
  vm_compute. reflexivity.
Qed.

(** Blocks that are their parameters take them back as they are. *)
Lemma likelihood_set_params_get_params_witness :
  set_params (get_params (kernel likelihood)) (kernel likelihood)
    = (Return (), kernel likelihood)
  ∧ likelihood_set_params (likelihood_get_params likelihood) likelihood
    = (Return (), likelihood).
Proof.
  split; [reflexivity|].
  apply (likelihood_set_params_get_params likelihood); reflexivity.
Defined.
